(** * The branch workflow engine and the change accumulator

    A shallow embedding of [workflow-engine.py] ([GitHubRepoManager]) and of
    [autonomous-agent.py] ([RepositoryMonitor]).

    The two Python objects become records, their methods become actions of a
    state-and-exception monad, and everything outside the process (the git and
    gh executables, the clock, the file system) is reached through the
    [External] interface, so that every statement proved in the abstract holds
    whatever those collaborators answer.  A small deterministic repository,
    [Sim], instantiates the interface for the concrete scenarios. *)

From Stdlib Require Import String Ascii List ZArith QArith Bool Lia Lqa.
From stdpp Require Import base gmap strings list pretty.
Close Scope Q_scope.
Open Scope string_scope.
Open Scope list_scope.
Open Scope stdpp_scope.

(** ** Python string primitives

    Strings are byte strings; [lower] and [strip] act on the ASCII range. *)

Module Py.

Definition is_upper (c : ascii) : bool :=
  let n := nat_of_ascii c in (65 <=? n)%nat && (n <=? 90)%nat.

Definition lower_char (c : ascii) : ascii :=
  if is_upper c then ascii_of_nat (nat_of_ascii c + 32) else c.

(** [s.lower()] *)
Fixpoint lower (s : string) : string :=
  match s with
  | EmptyString => EmptyString
  | String c r => String (lower_char c) (lower r)
  end.

(** [s.replace(old, new)] for one-character [old] and [new]. *)
Fixpoint replace_char (old new : ascii) (s : string) : string :=
  match s with
  | EmptyString => EmptyString
  | String c r =>
      String (if Ascii.eqb c old then new else c) (replace_char old new r)
  end.

(** [needle in hay] *)
Fixpoint contains (needle hay : string) : bool :=
  String.prefix needle hay ||
  match hay with
  | EmptyString => false
  | String _ r => contains needle r
  end.

(** [any(p in s for p in patterns)] *)
Definition any_in (patterns : list string) (s : string) : bool :=
  existsb (fun p => contains p s) patterns.

(** [str.isspace] on one ASCII character. *)
Definition is_space (c : ascii) : bool :=
  let n := nat_of_ascii c in
  ((9 <=? n)%nat && (n <=? 13)%nat) || ((28 <=? n)%nat && (n <=? 32)%nat).

Fixpoint lstrip (s : string) : string :=
  match s with
  | EmptyString => EmptyString
  | String c r => if is_space c then lstrip r else s
  end.

Fixpoint rstrip (s : string) : string :=
  match s with
  | EmptyString => EmptyString
  | String c r =>
      match rstrip r with
      | EmptyString => if is_space c then EmptyString else String c EmptyString
      | r' => String c r'
      end
  end.

(** [s.strip()] *)
Definition strip (s : string) : string := rstrip (lstrip s).

(** [sep.join(l)] *)
Definition join (sep : string) (l : list string) : string :=
  String.concat sep l.

(** [d.get(k, default)] on a dict written as an association list. *)
Fixpoint dict_get (d : list (string * string)) (k default : string) : string :=
  match d with
  | [] => default
  | (k', v) :: d' => if String.eqb k' k then v else dict_get d' k default
  end.

Fixpoint kw_lookup (kw : list (string * string)) (k : string) : option string :=
  match kw with
  | [] => None
  | (k', v) :: kw' => if String.eqb k' k then Some v else kw_lookup kw' k
  end.

End Py.

(** ** Exceptions and results *)

Inductive exn : Type :=
| ValueError (msg : string)
| KeyError (key : string)
| FileNotFoundError
| CalledProcessError (returncode : Z) (stdout stderr : string).

Inductive result (A : Type) : Type :=
| Ok (a : A)
| Raise (e : exn).
Arguments Ok {A} a.
Arguments Raise {A} e.

Definition is_ok {A} (r : result A) : bool :=
  match r with Ok _ => true | Raise _ => false end.

(** *** Formatting

    [pattern.format] with keyword arguments only is modelled on plain
    patterns: text in which every brace belongs to a doubled brace (the
    escape of a brace) or to a replacement field [{name}] whose name is an
    identifier.  On such a pattern Python substitutes the keyword of each
    field from left to right and raises [KeyError] at the first name that is
    not among the keywords; that is [format_from].  Every other pattern (a
    field with a conversion, a format specification, an index or an
    attribute, a positional or empty field, an unbalanced brace) is left to
    the formatter of the interpreter, see [str_format] below. *)

Definition is_ident_start (c : ascii) : bool :=
  let n := nat_of_ascii c in
  ((65 <=? n)%nat && (n <=? 90)%nat) || ((97 <=? n)%nat && (n <=? 122)%nat)
  || (n =? 95)%nat.

Definition is_ident_char (c : ascii) : bool :=
  let n := nat_of_ascii c in
  is_ident_start c || ((48 <=? n)%nat && (n <=? 57)%nat).

Fixpoint all_ident_chars (s : string) : bool :=
  match s with
  | EmptyString => true
  | String c r => is_ident_char c && all_ident_chars r
  end.

Definition is_identifier (s : string) : bool :=
  match s with
  | EmptyString => false
  | String c r => is_ident_start c && all_ident_chars r
  end.

(** [plain_from s field]: the rest [s] of a pattern is plain, [field] being
    the text read so far of the replacement field the scan is inside. *)
Fixpoint plain_from (s : string) (field : option string) : bool :=
  match s with
  | EmptyString =>
      match field with
      | None => true
      | Some _ => false
      end
  | String c r =>
      match field with
      | Some name =>
          if Ascii.eqb c "}" then is_identifier name && plain_from r None
          else if Ascii.eqb c "{" then false
          else plain_from r (Some (name +:+ String c EmptyString))
      | None =>
          if Ascii.eqb c "{" then
            match r with
            | String c' r' =>
                if Ascii.eqb c' "{" then plain_from r' None
                else plain_from r (Some EmptyString)
            | EmptyString => false
            end
          else if Ascii.eqb c "}" then
            match r with
            | String c' r' =>
                if Ascii.eqb c' "}" then plain_from r' None else false
            | EmptyString => false
            end
          else plain_from r None
      end
  end.

(** The substitution, scanning as [plain_from] does.  On a plain pattern
    the only exception is the [KeyError]; the [ValueError] branches are
    those of a pattern that is not plain, on which [str_format] does not
    use this function. *)
Fixpoint format_from (kw : list (string * string)) (s : string)
    (field : option string) : result string :=
  match s with
  | EmptyString =>
      match field with
      | None => Ok EmptyString
      | Some _ => Raise (ValueError "expected '}' before end of string")
      end
  | String c r =>
      match field with
      | Some name =>
          if Ascii.eqb c "}" then
            match Py.kw_lookup kw name with
            | None => Raise (KeyError name)
            | Some v =>
                match format_from kw r None with
                | Ok rest => Ok (v +:+ rest)
                | Raise e => Raise e
                end
            end
          else if Ascii.eqb c "{" then
            Raise (ValueError "unexpected '{' in field name")
          else format_from kw r (Some (name +:+ String c EmptyString))
      | None =>
          if Ascii.eqb c "{" then
            match r with
            | String c' r' =>
                if Ascii.eqb c' "{" then
                  match format_from kw r' None with
                  | Ok rest => Ok (String "{" rest)
                  | Raise e => Raise e
                  end
                else format_from kw r (Some EmptyString)
            | EmptyString => format_from kw r (Some EmptyString)
            end
          else if Ascii.eqb c "}" then
            match r with
            | String c' r' =>
                if Ascii.eqb c' "}" then
                  match format_from kw r' None with
                  | Ok rest => Ok (String "}" rest)
                  | Raise e => Raise e
                  end
                else Raise (ValueError "Single '}' encountered in format string")
            | EmptyString =>
                Raise (ValueError "Single '}' encountered in format string")
            end
          else
            match format_from kw r None with
            | Ok rest => Ok (String c rest)
            | Raise e => Raise e
            end
      end
  end.

(** ** The collaborators outside the process *)

(** What [subprocess.run] observes: the program ran and exited, or it could
    not be started (the [FileNotFoundError] of a missing executable). *)
Inductive proc_result : Type :=
| Exited (returncode : Z) (stdout stderr : string)
| NoSuchProgram.

(** The outside world: [spawn w cwd argv] runs a program, the clock is read
    in the two formats the code uses (the float of [time.time()] as a
    rational), and the file system answers the three questions the code asks
    of it.  [format_other pattern kw] is what the interpreter's [str.format]
    answers on a pattern that is not plain; nothing is assumed about it, so
    what is proved holds whatever it answers. *)
Class External (W : Type) : Type := {
  spawn : W -> option string -> list string -> proc_result * W;
  strftime_now : W -> string;   (* datetime.now().strftime('%Y%m%d-%H%M%S') *)
  time_now : W -> Q;            (* time.time() *)
  path_exists : W -> string -> bool;
  file_md5 : W -> string -> option string; (* digest of a regular file *)
  save_hashes : W -> gmap string string -> W;
  format_other : string -> list (string * string) -> result string
}.

(** [pattern.format] with the keyword arguments [kw]. *)
Definition str_format {W : Type} `{External W} (pattern : string)
    (kw : list (string * string)) : result string :=
  if plain_from pattern None then format_from kw pattern None
  else format_other pattern kw.

(** ** Configuration (the keys of agent-config.yaml that the code reads) *)

Record Config : Type := {
  remote_url : string;
  default_branch : string;
  protected_branches : list string;
  branch_strategy : gmap string string;
  commit_format : string;
  draft_by_default : bool;
  prevent_main_commit : bool
}.

(** ** The two objects *)

Record Manager : Type := {
  config : Config;
  repo_path : option string;
  current_branch : option string
}.

Inductive Category : Type := CFeature | CDocs | CConfig | CFix.

Definition category_name (c : Category) : string :=
  match c with
  | CFeature => "feature"
  | CDocs => "docs"
  | CConfig => "config"
  | CFix => "fix"
  end.

#[global] Instance Category_eq_dec : EqDecision Category.
Proof. solve_decision. Defined.

(** [pending_changes]: a dict with the four fixed keys, each holding a set. *)
Record Pending : Type := {
  p_feature : gset string;
  p_docs : gset string;
  p_config : gset string;
  p_fix : gset string
}.

Record Monitor : Type := {
  mon_repo_path : string;
  pending_changes : Pending;
  last_process_time : Q;
  process_delay : Q;
  file_hashes : gmap string string
}.

(** An update handed by the accumulator to the workflow. *)
Record UpdateRequest : Type := {
  ur_category : Category;
  ur_files : list string;
  ur_description : string
}.

(** One [subprocess.run] call, with the value [self.current_branch] had when
    the call was made. *)
Record Event : Type := {
  ev_argv : list string;
  ev_cwd : option string;
  ev_branch : option string
}.

Inductive level : Type := INFO | WARNING | ERROR.

(** The whole state: the two objects, the world, and three observation
    lists that only grow (processes started, log lines, updates emitted). *)
Record Sys (W : Type) : Type := {
  manager : Manager;
  monitor : Monitor;
  world : W;
  trace : list Event;
  journal : list (level * string);
  emitted : list UpdateRequest
}.
Arguments manager {W} s.
Arguments monitor {W} s.
Arguments world {W} s.
Arguments trace {W} s.
Arguments journal {W} s.
Arguments emitted {W} s.
Arguments Build_Sys {W}.

Definition is_commit (e : Event) : bool :=
  match ev_argv e with
  | prog :: sub :: _ => String.eqb prog "git" && String.eqb sub "commit"
  | _ => false
  end.

Definition is_push (e : Event) : bool :=
  match ev_argv e with
  | prog :: sub :: _ => String.eqb prog "git" && String.eqb sub "push"
  | _ => false
  end.

(** [b in protected_branches], for the optional value of [current_branch]. *)
Definition is_protected (c : Config) (b : option string) : bool :=
  match b with
  | None => false
  | Some n => bool_decide (n ∈ protected_branches c)
  end.

(** ** The state-and-exception monad *)

Definition M (W A : Type) : Type := Sys W -> result A * Sys W.

Definition ret {W A} (a : A) : M W A := fun s => (Ok a, s).

Definition raise {W A} (e : exn) : M W A := fun s => (Raise e, s).

Definition bind {W A B} (m : M W A) (k : A -> M W B) : M W B :=
  fun s =>
    match m s with
    | (Ok a, s') => k a s'
    | (Raise e, s') => (Raise e, s')
    end.

(** [try: m except ...]: [handler e] is [Some k] when a clause catches [e]. *)
Definition try_except {W A} (m : M W A) (handler : exn -> option (M W A))
  : M W A :=
  fun s =>
    match m s with
    | (Ok a, s') => (Ok a, s')
    | (Raise e, s') =>
        match handler e with
        | Some k => k s'
        | None => (Raise e, s')
        end
    end.

Definition lift {W A} (r : result A) : M W A := fun s => (r, s).

Definition gets {W A} (f : Sys W -> A) : M W A := fun s => (Ok (f s), s).

(** [self.field]: a read of the manager object. *)
Definition self {W A} (f : Manager -> A) : M W A :=
  gets (fun s => f (manager s)).

Definition modify {W} (f : Sys W -> Sys W) : M W unit := fun s => (Ok tt, f s).

Notation "'let*' x ':=' a 'in' b" := (bind a (fun x => b))
  (at level 10, x name, a at level 100, b at level 200,
   format "'[v' 'let*'  x  ':='  a  'in' '/' b ']'").
Notation "'let*' ' p ':=' a 'in' b" := (bind a (fun p => b))
  (at level 10, p pattern, a at level 100, b at level 200,
   format "'[v' 'let*'  ' p  ':='  a  'in' '/' b ']'").
Notation "a '>>' b" := (bind a (fun _ => b))
  (at level 100, b at level 200, right associativity).

(** [for x in l: body(x)] *)
Fixpoint for_each {W A} (l : list A) (body : A -> M W unit) : M W unit :=
  match l with
  | [] => ret tt
  | x :: l' => body x >> for_each l' body
  end.

Definition with_manager {W} (f : Manager -> Manager) (s : Sys W) : Sys W :=
  Build_Sys (f (manager s)) (monitor s) (world s) (trace s) (journal s)
    (emitted s).

Definition with_monitor {W} (f : Monitor -> Monitor) (s : Sys W) : Sys W :=
  Build_Sys (manager s) (f (monitor s)) (world s) (trace s) (journal s)
    (emitted s).

Definition with_world {W} (f : W -> W) (s : Sys W) : Sys W :=
  Build_Sys (manager s) (monitor s) (f (world s)) (trace s) (journal s)
    (emitted s).

Definition set_repo_path (p : option string) (m : Manager) : Manager :=
  {| config := config m; repo_path := p; current_branch := current_branch m |}.

Definition set_current_branch (b : option string) (m : Manager) : Manager :=
  {| config := config m; repo_path := repo_path m; current_branch := b |}.

(** [logger.info(msg)] and its siblings. *)
Definition log {W} (l : level) (msg : string) : M W unit :=
  modify (fun s =>
    Build_Sys (manager s) (monitor s) (world s) (trace s)
      (journal s ++ [(l, msg)]) (emitted s)).

Definition emit {W} (u : UpdateRequest) : M W unit :=
  modify (fun s =>
    Build_Sys (manager s) (monitor s) (world s) (trace s) (journal s)
      (emitted s ++ [u])).

(** [str(e)] for the log lines of the accumulator (the text of a
    [CalledProcessError] without its command). *)
Definition exn_str (e : exn) : string :=
  match e with
  | ValueError msg => msg
  | KeyError k => "'" +:+ k +:+ "'"
  | FileNotFoundError => "[Errno 2] No such file or directory"
  | CalledProcessError rc _ _ =>
      "Command returned non-zero exit status " +:+ pretty rc +:+ "."
  end.

(** [str(self.current_branch)] inside an f-string. *)
Definition str_opt (o : option string) : string :=
  match o with
  | Some s => s
  | None => "None"
  end.

Definition nl : string := String (ascii_of_nat 10) EmptyString.

(** ** workflow-engine.py: [GitHubRepoManager] *)

Section WorkflowEngine.
Context {W : Type} `{External W}.

(** [subprocess.run(argv, cwd=cwd, capture_output=True, text=True,
    check=check)] *)
Definition subprocess_run (argv : list string) (cwd : option string)
    (check : bool) : M W (Z * string * string) :=
  fun s =>
    let ev := {| ev_argv := argv; ev_cwd := cwd;
                 ev_branch := current_branch (manager s) |} in
    let '(r, w') := spawn (world s) cwd argv in
    let s' := Build_Sys (manager s) (monitor s) w' (trace s ++ [ev])
                (journal s) (emitted s) in
    match r with
    | NoSuchProgram => (Raise FileNotFoundError, s')
    | Exited rc out err =>
        if check && negb (rc =? 0)%Z
        then (Raise (CalledProcessError rc out err), s')
        else (Ok (rc, out, err), s')
    end.

(** [__init__] after [_load_config]: [_validate_configuration] refuses a
    configuration whose safeguard is off. *)
Definition new_manager (c : Config) : result Manager :=
  if negb (prevent_main_commit c)
  then Raise (ValueError "CRITICAL: Main branch protection must be enabled!")
  else Ok {| config := c; repo_path := None; current_branch := None |}.

Definition _run_git_command (command : list string) (check : bool)
  : M W (Z * string * string) :=
  try_except
    (let* cwd := self repo_path in
     subprocess_run ("git" :: command) cwd check)
    (fun e =>
       match e with
       | CalledProcessError rc out err =>
           Some (log ERROR ("Git command failed: " +:+ Py.join " " command) >>
                 ret (rc, out, err))
       | _ => None
       end).

Definition _ensure_not_on_main : M W unit :=
  let* '(_, current_branch, _) :=
    _run_git_command ["branch"; "--show-current"] true in
  let current_branch := Py.strip current_branch in
  let* protected_branches :=
    self (fun m => protected_branches (config m)) in
  if bool_decide (current_branch ∈ protected_branches) then
    let* stamp := gets (fun s => strftime_now (world s)) in
    let safe_branch := "work/" +:+ stamp in
    log WARNING ("On protected branch '" +:+ current_branch +:+
                 "', switching to '" +:+ safe_branch +:+ "'") >>
    let* _ := _run_git_command ["checkout"; "-b"; safe_branch] true in
    ret tt
  else ret tt.

Definition initialize_repository (path : string) : M W unit :=
  modify (with_manager (set_repo_path (Some path))) >>
  let* present := gets (fun s => path_exists (world s) path) in
  (if negb present then
     log INFO ("Cloning repository to " +:+ path) >>
     let* clone_url := self (fun m => remote_url (config m)) in
     let* _ := subprocess_run ["git"; "clone"; clone_url; path] None true in
     ret tt
   else log INFO ("Using existing repository at " +:+ path)) >>
  _ensure_not_on_main.

(** The name [create_feature_branch] builds at time stamp [timestamp]. *)
Definition branch_name_for (c : Config) (branch_type description timestamp
    : string) : result string :=
  let pattern_key := branch_type +:+ "_pattern" in
  let pattern :=
    default "feature/{timestamp}-{description}"
      (branch_strategy c !! pattern_key) in
  str_format pattern
    [("timestamp", timestamp);
     ("description",
      Py.replace_char " " "-" (Py.lower description))].

Definition create_feature_branch (branch_type description : string)
  : M W string :=
  let* timestamp := gets (fun s => strftime_now (world s)) in
  let* c := self config in
  let* branch_name :=
    lift (branch_name_for c branch_type description timestamp) in
  log INFO ("Creating branch: " +:+ branch_name) >>
  let* _ := _run_git_command ["fetch"; "origin"] true in
  let* _ :=
    _run_git_command ["checkout"; "-b"; branch_name; "origin/main"] true in
  modify (with_manager (set_current_branch (Some branch_name))) >>
  ret branch_name.

(** [commit_changes], with the guard it starts with as a parameter; the
    method itself is [commit_changes] below, at the real guard. *)
Definition commit_changes_with (guard : M W unit)
    (files : list string) (commit_type scope description : string)
  : M W unit :=
  guard >>
  for_each files (fun file =>
    let* _ := _run_git_command ["add"; file] true in ret tt) >>
  let* commit_format := self (fun m => commit_format (config m)) in
  let* commit_message :=
    lift (str_format commit_format
            [("type", commit_type); ("scope", scope);
             ("description", description)]) in
  log INFO ("Committing: " +:+ commit_message) >>
  let* _ := _run_git_command ["commit"; "-m"; commit_message] true in
  ret tt.

Definition commit_changes := commit_changes_with _ensure_not_on_main.

Definition push_branch (set_upstream : bool) : M W unit :=
  let* cur := self current_branch in
  match cur with
  | None | Some EmptyString => raise (ValueError "No current branch set")
  | Some current =>
      let* protected := self (fun m => protected_branches (config m)) in
      if bool_decide (current ∈ protected) then
        raise (ValueError ("BLOCKED: Cannot push to protected branch '" +:+
                           current +:+ "'"))
      else
        let push_cmd :=
          if set_upstream then ["push"; "-u"; "origin"; current]
          else ["push"; "origin"] in
        log INFO ("Pushing branch: " +:+ current) >>
        let* _ := _run_git_command push_cmd true in
        ret tt
  end.

Definition create_pull_request (title body : string)
    (labels : option (list string)) : M W (option string) :=
  let* available :=
    try_except
      (let* _ := subprocess_run ["gh"; "--version"] None true in ret true)
      (fun e =>
         match e with
         | CalledProcessError _ _ _ | FileNotFoundError =>
             Some (log ERROR "GitHub CLI (gh) not found. Please install it." >>
                   ret false)
         | _ => None
         end) in
  if negb available then ret None
  else
    let* c := self config in
    let pr_cmd :=
      ["gh"; "pr"; "create"; "--title"; title; "--body"; body;
       "--base"; default_branch c]
      ++ match labels with
         | Some (l :: ls) => ["--label"; Py.join "," (l :: ls)]
         | _ => []
         end
      ++ (if draft_by_default c then ["--draft"] else []) in
    log INFO ("Creating pull request: " +:+ title) >>
    let* cwd := self repo_path in
    let* '(returncode, stdout, stderr) := subprocess_run pr_cmd cwd false in
    if (returncode =? 0)%Z then
      let pr_url := Py.strip stdout in
      log INFO ("Pull request created: " +:+ pr_url) >>
      ret (Some pr_url)
    else
      log ERROR ("Failed to create PR: " +:+ stderr) >>
      ret None.

(** [_determine_scope]: the first test lowers the path, the extension tests
    do not. *)
Definition _determine_scope (files : list string) : string :=
  if existsb (fun f => Py.contains "doc" (Py.lower f)) files then "docs"
  else if existsb (fun f => Py.contains "config" (Py.lower f)
                            || Py.contains ".yaml" f
                            || Py.contains ".json" f) files then "config"
  else if existsb (fun f => Py.contains "script" (Py.lower f)
                            || Py.contains ".sh" f
                            || Py.contains ".py" f) files then "scripts"
  else "core".

Definition pr_checklist : string :=
  nl +:+ "## Checklist" +:+ nl +:+
  "- [x] Changes follow branch-based workflow" +:+ nl +:+
  "- [x] Commits follow conventional format" +:+ nl +:+
  "- [x] No direct commits to main branch" +:+ nl +:+
  "- [ ] Tests pass (if applicable)" +:+ nl +:+
  "- [ ] Documentation updated (if needed)" +:+ nl +:+
  nl +:+ "---" +:+ nl +:+
  "*This PR was created automatically by the GitHub Repository Manager*"
  +:+ nl.

Definition _generate_pr_body (update_type : string) (files : list string)
    (description : string) : M W string :=
  let* cur := self current_branch in
  let body :=
    "## Summary" +:+ nl +:+ description +:+ nl +:+ nl +:+
    "## Type of Change" +:+ nl +:+
    "- Update Type: " +:+ update_type +:+ nl +:+
    "- Branch: " +:+ str_opt cur +:+ nl +:+ nl +:+
    "## Files Changed" +:+ nl in
  let body :=
    fold_left (fun b file => b +:+ "- " +:+ file +:+ nl) files body in
  ret (body +:+ pr_checklist).

Record WorkflowResult : Type := {
  branch : string;
  commit_type : string;
  pr_url : option string;
  status : string
}.

Definition branch_type_map : list (string * string) :=
  [("feature", "feature"); ("documentation", "docs"); ("bugfix", "fix");
   ("configuration", "config"); ("maintenance", "update")].

(** ['success' if pr_url else 'failed']: an empty URL is falsy too. *)
Definition status_of (pr_url : option string) : string :=
  match pr_url with
  | None | Some EmptyString => "failed"
  | Some _ => "success"
  end.

(** [process_update], with the guard of its commit step as a parameter. *)
Definition process_update_with (guard : M W unit)
    (update_type : string) (files : list string) (description : string)
  : M W WorkflowResult :=
  log INFO ("Processing " +:+ update_type +:+ " update: " +:+ description) >>
  let branch_type := Py.dict_get branch_type_map update_type "feature" in
  let* branch_name := create_feature_branch branch_type description in
  let commit_type :=
    if negb (String.eqb branch_type "docs") then branch_type else "docs" in
  let scope := _determine_scope files in
  commit_changes_with guard files commit_type scope description >>
  push_branch true >>
  let pr_title := commit_type +:+ "(" +:+ scope +:+ "): " +:+ description in
  let* pr_body := _generate_pr_body update_type files description in
  let labels := [branch_type; "automated"] in
  let* pr_url := create_pull_request pr_title pr_body (Some labels) in
  ret {| branch := branch_name; commit_type := commit_type;
         pr_url := pr_url; status := status_of pr_url |}.

Definition process_update := process_update_with _ensure_not_on_main.

End WorkflowEngine.

(** The command line [create_pull_request] builds. *)
Definition pr_command (c : Config) (title body : string)
    (labels : option (list string)) : list string :=
  ["gh"; "pr"; "create"; "--title"; title; "--body"; body;
   "--base"; default_branch c]
  ++ match labels with
     | Some (l :: ls) => ["--label"; Py.join "," (l :: ls)]
     | _ => []
     end
  ++ (if draft_by_default c then ["--draft"] else []).

(** The part of the pull-request body above the list of files, and the
    line of one file. *)
Definition pr_intro (update_type description : string)
    (cur : option string) : string :=
  "## Summary" +:+ nl +:+ description +:+ nl +:+ nl +:+
  "## Type of Change" +:+ nl +:+
  "- Update Type: " +:+ update_type +:+ nl +:+
  "- Branch: " +:+ str_opt cur +:+ nl +:+ nl +:+
  "## Files Changed" +:+ nl.

Definition pr_file_line (file : string) : string := "- " +:+ file +:+ nl.

(** The precedence among the scopes [_determine_scope] returns. *)
Definition scope_rank (scope : string) : nat :=
  if String.eqb scope "docs" then 3
  else if String.eqb scope "config" then 2
  else if String.eqb scope "scripts" then 1
  else 0.

(** ** autonomous-agent.py: [RepositoryMonitor] *)

Record FsEvent : Type := {
  is_directory : bool;
  src_path : string
}.

Definition pending_get (p : Pending) (c : Category) : gset string :=
  match c with
  | CFeature => p_feature p
  | CDocs => p_docs p
  | CConfig => p_config p
  | CFix => p_fix p
  end.

Definition pending_set (c : Category) (v : gset string) (p : Pending)
  : Pending :=
  match c with
  | CFeature => {| p_feature := v; p_docs := p_docs p;
                   p_config := p_config p; p_fix := p_fix p |}
  | CDocs => {| p_feature := p_feature p; p_docs := v;
                p_config := p_config p; p_fix := p_fix p |}
  | CConfig => {| p_feature := p_feature p; p_docs := p_docs p;
                  p_config := v; p_fix := p_fix p |}
  | CFix => {| p_feature := p_feature p; p_docs := p_docs p;
               p_config := p_config p; p_fix := v |}
  end.

(** The keys of [pending_changes] in the order the dict was built, which is
    the order [items()] yields them. *)
Definition categories : list Category := [CFeature; CDocs; CConfig; CFix].

Definition empty_pending : Pending :=
  {| p_feature := ∅; p_docs := ∅; p_config := ∅; p_fix := ∅ |}.

Definition set_pending (p : Pending) (m : Monitor) : Monitor :=
  {| mon_repo_path := mon_repo_path m; pending_changes := p;
     last_process_time := last_process_time m;
     process_delay := process_delay m; file_hashes := file_hashes m |}.

Definition set_last_process_time (t : Q) (m : Monitor) : Monitor :=
  {| mon_repo_path := mon_repo_path m; pending_changes := pending_changes m;
     last_process_time := t;
     process_delay := process_delay m; file_hashes := file_hashes m |}.

Definition set_file_hashes (h : gmap string string) (m : Monitor) : Monitor :=
  {| mon_repo_path := mon_repo_path m; pending_changes := pending_changes m;
     last_process_time := last_process_time m;
     process_delay := process_delay m; file_hashes := h |}.

(** [RepositoryMonitor.__init__], given what [_load_file_hashes] read. *)
Definition new_monitor (path : string) (loaded : gmap string string)
  : Monitor :=
  {| mon_repo_path := path; pending_changes := empty_pending;
     last_process_time := 0%Q; process_delay := 30%Q;
     file_hashes := loaded |}.

(** [path.relative_to(base)] on absolute paths in normal form (no doubled
    or trailing separator), which is how the event source reports them. *)
Definition relative_to (path base : string) : result string :=
  if String.eqb path base then Ok "."
  else
    let dir := if String.eqb base "/" then base else base +:+ "/" in
    if String.prefix dir path
    then Ok (String.substring (String.length dir)
               (String.length path - String.length dir) path)
    else Raise (ValueError ("'" +:+ path +:+ "' is not in the subpath of '"
                            +:+ base +:+ "'")).

Definition doc_markers : list string := ["readme"; "doc"; ".md"; "license"].
Definition config_markers : list string :=
  ["config"; ".yaml"; ".yml"; ".json"; ".ini"].
Definition script_markers : list string := [".sh"; ".py"; "script"].

Definition _categorize_file (repo filepath : string) : result Category :=
  match relative_to filepath repo with
  | Raise e => Raise e
  | Ok rel_path =>
      let path_str := Py.lower rel_path in
      if Py.any_in doc_markers path_str then Ok CDocs
      else if Py.any_in config_markers path_str then Ok CConfig
      else if Py.any_in script_markers path_str then Ok CFeature
      else Ok CFeature
  end.

Definition ignore_patterns : list string :=
  [".git/"; "__pycache__/"; ".pyc"; ".log"; ".tmp";
   ".swp"; ".DS_Store"; "node_modules/"; ".env"].

Definition _should_ignore_file (filepath : string) : bool :=
  Py.any_in ignore_patterns filepath.

Definition Qltb (x y : Q) : bool := negb (Qle_bool y x).

Section Accumulator.
Context {W : Type} `{External W}.

Definition _get_file_hash (filepath : string) : M W string :=
  gets (fun s => default EmptyString (file_md5 (world s) filepath)).

Definition _save_file_hashes : M W unit :=
  modify (fun s =>
    with_world (fun w => save_hashes w (file_hashes (monitor s))) s).

Definition on_modified (event : FsEvent) : M W unit :=
  if is_directory event then ret tt
  else
    let filepath := src_path event in
    if _should_ignore_file filepath then ret tt
    else
      let* new_hash := _get_file_hash filepath in
      let* old_hash :=
        gets (fun s =>
          default EmptyString (file_hashes (monitor s) !! filepath)) in
      if negb (String.eqb new_hash old_hash) then
        modify (with_monitor (fun m =>
          set_file_hashes (<[filepath := new_hash]> (file_hashes m)) m)) >>
        let* repo := gets (fun s => mon_repo_path (monitor s)) in
        let* category := lift (_categorize_file repo filepath) in
        let* rel_path := lift (relative_to filepath repo) in
        modify (with_monitor (fun m =>
          set_pending
            (pending_set category
               ({[rel_path]} ∪ pending_get (pending_changes m) category)
               (pending_changes m)) m)) >>
        log INFO ("Change detected: " +:+ rel_path +:+ " (category: " +:+
                  category_name category +:+ ")")
      else ret tt.

Definition on_created (event : FsEvent) : M W unit :=
  if negb (is_directory event) then on_modified event else ret tt.

(** The description [_process_category_changes] generates. *)
Definition describe (category : Category) (files : list string) : string :=
  match files with
  | [file] => "Update " +:+ file
  | _ => "Update " +:+ pretty (length files) +:+ " " +:+
         category_name category +:+ " files"
  end.

(** The update is recorded in [emitted] once its description is built; the
    hand-over to the manager follows inside the [try] block. *)
Definition _process_category_changes (category : Category)
    (files : list string) : M W unit :=
  let description := describe category files in
  emit {| ur_category := category; ur_files := files;
          ur_description := description |} >>
  try_except
    (let* configured := self repo_path in
     let* repo := gets (fun s => mon_repo_path (monitor s)) in
     (if configured is None then initialize_repository repo else ret tt) >>
     let* result :=
       process_update (category_name category) files description in
     if String.eqb (status result) "success" then
       log INFO ("Successfully processed " +:+ category_name category +:+
                 " update: " +:+ str_opt (pr_url result))
     else
       log ERROR ("Failed to process " +:+ category_name category +:+
                  " update"))
    (fun e =>
       Some (log ERROR ("Error processing " +:+ category_name category +:+
                        " changes: " +:+ exn_str e))).

(** The body of the loop of [process_pending_changes], for one item of
    [pending_changes.items()]. *)
Definition flush_category (category : Category) : M W unit :=
  let* files :=
    gets (fun s => pending_get (pending_changes (monitor s)) category) in
  if bool_decide (files ≠ ∅) then
    _process_category_changes category (elements files) >>
    modify (with_monitor (fun m =>
      set_pending (pending_set category ∅ (pending_changes m)) m))
  else ret tt.

Definition process_pending_changes : M W unit :=
  let* current_time := gets (fun s => time_now (world s)) in
  let* last := gets (fun s => last_process_time (monitor s)) in
  let* delay := gets (fun s => process_delay (monitor s)) in
  if Qltb (current_time - last)%Q delay then ret tt
  else
    for_each categories flush_category >>
    modify (with_monitor (set_last_process_time current_time)) >>
    _save_file_hashes.

End Accumulator.

(** ** Entry points *)

Section EntryPoints.
Context {W : Type} `{External W}.

(** The clone both entry points work on. *)
Definition agent_repo_path : string :=
  "/home/jb_remus/repos/claude-code-wsl-setup".

(** [setup_agent], given the configuration [_load_config] read: a new
    manager is constructed (the constructor validates and says so in the
    log), replaces the old one and is pointed at the clone. *)
Definition setup_agent (loaded : Config) : M W unit :=
  let* m := lift (new_manager loaded) in
  log INFO "Configuration validated successfully" >>
  modify (with_manager (fun _ => m)) >>
  initialize_repository agent_repo_path.

(** [handle_file_update(files, description, update_type)] *)
Definition handle_file_update (loaded : Config) (files : list string)
    (description update_type : string) : M W WorkflowResult :=
  setup_agent loaded >>
  process_update update_type files description.

(** [AutonomousAgent.handle_manual_update]: the result, or [None]. *)
Definition handle_manual_update (files : list string)
    (description update_type : string) : M W (option WorkflowResult) :=
  log INFO ("Processing manual update: " +:+ description) >>
  try_except
    (let* configured := self repo_path in
     (if configured is None then initialize_repository agent_repo_path
      else ret tt) >>
     let* result := process_update update_type files description in
     if String.eqb (status result) "success" then
       log INFO ("Manual update successful: " +:+ str_opt (pr_url result)) >>
       ret (Some result)
     else
       log ERROR "Manual update failed" >>
       ret None)
    (fun e =>
       Some (log ERROR ("Error in manual update: " +:+ exn_str e) >>
             ret None)).

End EntryPoints.

(** ** A reference repository

    A small deterministic stand-in for the collaborators, used for the
    concrete scenarios.  git is always installed; whether gh is installed is
    a property of the machine ([gh_installed]), not of the repository.  Exit
    codes follow git: 128 for a fatal error, 1 for "nothing to commit". *)

Module Sim.

Record Repo : Type := {
  head : string;                         (* the branch checked out *)
  local_branches : list string;
  remote_refs : list string;             (* e.g. origin/main *)
  online : bool;                         (* the remote can be reached *)
  worktree : list string;                (* paths present, repo-relative *)
  index : list string;                   (* paths staged *)
  commits : list (string * string * list string); (* branch, message, paths *)
  pushed : list string;
  stamp : string;                        (* the clock, formatted *)
  seconds : Q;                           (* the clock, in seconds *)
  digests : gmap string string;          (* absolute path to md5 *)
  saved : gmap string string             (* .file_hashes.json *)
}.

Definition checkout_new (h : string) (r : Repo) : Repo :=
  {| head := h; local_branches := local_branches r ++ [h];
     remote_refs := remote_refs r; online := online r;
     worktree := worktree r; index := index r; commits := commits r;
     pushed := pushed r; stamp := stamp r; seconds := seconds r;
     digests := digests r; saved := saved r |}.

Definition set_index (i : list string) (r : Repo) : Repo :=
  {| head := head r; local_branches := local_branches r;
     remote_refs := remote_refs r; online := online r;
     worktree := worktree r; index := i; commits := commits r;
     pushed := pushed r; stamp := stamp r; seconds := seconds r;
     digests := digests r; saved := saved r |}.

Definition add_commit (msg : string) (r : Repo) : Repo :=
  {| head := head r; local_branches := local_branches r;
     remote_refs := remote_refs r; online := online r;
     worktree := worktree r; index := [];
     commits := commits r ++ [(head r, msg, index r)];
     pushed := pushed r; stamp := stamp r; seconds := seconds r;
     digests := digests r; saved := saved r |}.

Definition add_pushed (b : string) (r : Repo) : Repo :=
  {| head := head r; local_branches := local_branches r;
     remote_refs := remote_refs r; online := online r;
     worktree := worktree r; index := index r; commits := commits r;
     pushed := pushed r ++ [b]; stamp := stamp r; seconds := seconds r;
     digests := digests r; saved := saved r |}.

Definition set_saved (h : gmap string string) (r : Repo) : Repo :=
  {| head := head r; local_branches := local_branches r;
     remote_refs := remote_refs r; online := online r;
     worktree := worktree r; index := index r; commits := commits r;
     pushed := pushed r; stamp := stamp r; seconds := seconds r;
     digests := digests r; saved := h |}.

Definition mem (x : string) (l : list string) : bool := bool_decide (x ∈ l).

(** One git command: exit code, standard output, repository afterwards. *)
Definition git (command : list string) (r : Repo) : Z * string * Repo :=
  match command with
  | [] => (1%Z, EmptyString, r)
  | sub :: args =>
      if String.eqb sub "branch" then (0%Z, head r +:+ nl, r)
      else if String.eqb sub "fetch" then
        (if online r then 0%Z else 128%Z, EmptyString, r)
      else if String.eqb sub "clone" then
        (if online r then 0%Z else 128%Z, EmptyString, r)
      else if String.eqb sub "checkout" then
        match args with
        | [_; name] =>
            if mem name (local_branches r) then (128%Z, EmptyString, r)
            else (0%Z, EmptyString, checkout_new name r)
        | [_; name; base] =>
            if mem name (local_branches r) || negb (mem base (remote_refs r))
            then (128%Z, EmptyString, r)
            else (0%Z, EmptyString, checkout_new name r)
        | _ => (128%Z, EmptyString, r)
        end
      else if String.eqb sub "add" then
        match args with
        | [file] =>
            if mem file (worktree r)
            then (0%Z, EmptyString, set_index (index r ++ [file]) r)
            else (128%Z, EmptyString, r)
        | _ => (128%Z, EmptyString, r)
        end
      else if String.eqb sub "commit" then
        match args, index r with
        | [_; msg], _ :: _ => (0%Z, EmptyString, add_commit msg r)
        | _, _ => (1%Z, EmptyString, r)
        end
      else if String.eqb sub "push" then
        if online r then
          match args with
          | [_; _; name] =>
              if mem name (local_branches r)
              then (0%Z, EmptyString, add_pushed name r)
              else (1%Z, EmptyString, r)
          | _ => (0%Z, EmptyString, add_pushed (head r) r)
          end
        else (128%Z, EmptyString, r)
      else (1%Z, EmptyString, r)
  end.

Definition run (gh_installed : bool) (r : Repo) (cwd : option string)
    (argv : list string) : proc_result * Repo :=
  match argv with
  | [] => (NoSuchProgram, r)
  | prog :: args =>
      if String.eqb prog "git" then
        let '(rc, out, r') := git args r in (Exited rc out EmptyString, r')
      else if String.eqb prog "gh" then
        if gh_installed then
          match args with
          | [_] => (Exited 0 "gh version 2.40.0" EmptyString, r)
          | _ =>
              if online r
              then (Exited 0 ("https://example.test/pull/1" +:+ nl)
                      EmptyString, r)
              else (Exited 1 EmptyString "error connecting", r)
          end
        else (NoSuchProgram, r)
      else (NoSuchProgram, r)
  end.

(** The scenarios configure plain patterns only, so the formatter for the
    other patterns is never consulted on this machine; it refuses them. *)
Definition refuse_pattern (pattern : string) (kw : list (string * string))
  : result string :=
  Raise (ValueError ("pattern outside the scenarios: " +:+ pattern)).

Definition machine (gh_installed : bool) : External Repo :=
  {| spawn := run gh_installed;
     strftime_now := stamp;
     time_now := seconds;
     path_exists := fun _ _ => true;
     file_md5 := fun r p => digests r !! p;
     save_hashes := fun r h => set_saved h r;
     format_other := refuse_pattern |}.

(** A clone of the repository with [h] checked out and [files] present. *)
Definition repo (h : string) (is_online : bool) (files : list string)
  : Repo :=
  {| head := h; local_branches := ["main"; "dev"];
     remote_refs := ["origin/main"]; online := is_online;
     worktree := files; index := []; commits := []; pushed := [];
     stamp := "20240101-120000"; seconds := 100%Q;
     digests := ∅; saved := ∅ |}.

Definition settings (patterns : gmap string string) : Config :=
  {| remote_url := "https://example.test/repo.git";
     default_branch := "main";
     protected_branches := ["main"; "master"];
     branch_strategy := patterns;
     commit_format := "{type}({scope}): {description}";
     draft_by_default := false;
     prevent_main_commit := true |}.

(** The state right after the two constructors ran, and the state once the
    agent has pointed the manager at the clone. *)
Definition fresh (c : Config) (r : Repo) : Sys Repo :=
  {| manager := {| config := c; repo_path := None; current_branch := None |};
     monitor := new_monitor "/repo" ∅;
     world := r; trace := []; journal := []; emitted := [] |}.

Definition start (c : Config) (r : Repo) : Sys Repo :=
  with_manager (set_repo_path (Some "/repo")) (fresh c r).

(** The configuration with no naming template, and one whose template for
    the feature category is the bare description. *)
Definition plain : Config := settings ∅.

Definition bare : Config := settings {["feature_pattern" := "{description}"]}.

(** A clone on [dev] with four files the accumulator has not seen yet. *)
Definition watched : Repo :=
  {| head := "dev"; local_branches := ["main"; "dev"];
     remote_refs := ["origin/main"]; online := true;
     worktree := ["a.yaml"; "b.json"; "c.txt"; "docs/README.md"];
     index := []; commits := [];
     pushed := []; stamp := "20240101-120000"; seconds := 100%Q;
     digests := {[ "/repo/a.yaml" := "0cc175b9c0f1b6a831c399e269772661";
                   "/repo/b.json" := "92eb5ffee6ae2fec3ad71c777531578f";
                   "/repo/c.txt" := "4a8a08f09d37b73795649038408b5f33";
                   "/repo/docs/README.md"
                     := "8277e0910d750195b448797616e091ad" ]};
     saved := ∅ |}.

(** The three files are reported modified, in turn. *)
Definition three_changes : Sys Repo :=
  let modified path :=
    @on_modified Repo (machine false)
      {| is_directory := false; src_path := path |} in
  snd (modified "/repo/c.txt"
         (snd (modified "/repo/b.json"
                 (snd (modified "/repo/a.yaml" (start plain watched)))))).

(** A clone on [main] in which the escape branch of this very second
    already exists. *)
Definition crowded : Repo :=
  {| head := "main";
     local_branches := ["main"; "dev"; "work/20240101-120000"];
     remote_refs := ["origin/main"]; online := true;
     worktree := ["a.txt"]; index := []; commits := []; pushed := [];
     stamp := "20240101-120000"; seconds := 100%Q;
     digests := ∅; saved := ∅ |}.

(** A clone on [dev] in which [b.txt] was staged by hand. *)
Definition staged : Repo := set_index ["b.txt"] (repo "dev" true ["b.txt"]).

(** As [plain], for a repository whose default branch is [develop]. *)
Definition develop_based : Config :=
  {| remote_url := remote_url plain;
     default_branch := "develop";
     protected_branches := ["develop"];
     branch_strategy := ∅;
     commit_format := commit_format plain;
     draft_by_default := false;
     prevent_main_commit := true |}.

(** [process_update] asked to name its branch after the main line. *)
Definition named_main (gh_installed : bool) (h : string) : Sys Repo :=
  snd (@process_update Repo (machine gh_installed)
         "feature" ["a.txt"] "main" (start bare (repo h true ["a.txt"]))).

(** An ordinary update, started with the main line checked out. *)
Definition ordinary (gh_installed : bool)
  : result WorkflowResult * Sys Repo :=
  @process_update Repo (machine gh_installed)
    "feature" ["a.txt"] "Add parser" (start plain (repo "main" true ["a.txt"])).

End Sim.

(** A machine on which the clone directory does not exist yet. *)
Definition unpopulated : External Sim.Repo :=
  {| spawn := Sim.run true;
     strftime_now := Sim.stamp;
     time_now := Sim.seconds;
     path_exists := fun _ _ => false;
     file_md5 := fun r p => Sim.digests r !! p;
     save_hashes := fun r h => Sim.set_saved h r;
     format_other := Sim.refuse_pattern |}.

(** A machine whose interpreter is asked about one pattern that is not
    plain, the template with a precision [{description:.4}], and answers as
    Python does: the first four characters of the description. *)
Definition clipping_format (pattern : string) (kw : list (string * string))
  : result string :=
  if String.eqb pattern "{description:.4}" then
    match Py.kw_lookup kw "description" with
    | Some d => Ok (String.substring 0 4 d)
    | None => Raise (KeyError "description")
    end
  else Sim.refuse_pattern pattern kw.

Definition clipping : External Sim.Repo :=
  {| spawn := Sim.run true;
     strftime_now := Sim.stamp;
     time_now := Sim.seconds;
     path_exists := fun _ _ => true;
     file_md5 := fun r p => Sim.digests r !! p;
     save_hashes := fun r h => Sim.set_saved h r;
     format_other := clipping_format |}.

Definition clipped : Config :=
  Sim.settings {["feature_pattern" := "{description:.4}"]}.

(** ** The classification policy as the specification words it

    An ordered list of (markers, label) pairs; the first pair one of whose
    markers occurs in the path, compared without regard to case, decides. *)

Definition markdown_extension : string := ".md".
Definition yaml_extensions : list string := [".yaml"; ".yml"].
Definition json_extension : string := ".json".
Definition ini_extension : string := ".ini".
Definition shell_extension : string := ".sh".
Definition script_extension : string := ".py".

Definition classification_policy : list (list string * Category) :=
  [ (["readme"; "doc"; markdown_extension; "license"], CDocs);
    ("config" :: yaml_extensions ++ [json_extension; ini_extension], CConfig);
    ([shell_extension; script_extension; "script"], CFeature) ].

Definition contains_ci (marker path : string) : bool :=
  Py.contains (Py.lower marker) (Py.lower path).

Fixpoint first_match (policy : list (list string * Category))
    (otherwise : Category) (path : string) : Category :=
  match policy with
  | [] => otherwise
  | (markers, label) :: rest =>
      if existsb (fun m => contains_ci m path) markers then label
      else first_match rest otherwise path
  end.

Definition classify_by_policy (rel_path : string) : Category :=
  first_match classification_policy CFeature rel_path.

(** ** What a flush is expected to emit *)

Definition request_for (p : Pending) (c : Category) : UpdateRequest :=
  {| ur_category := c;
     ur_files := elements (pending_get p c);
     ur_description := describe c (elements (pending_get p c)) |}.

Definition flush_requests (p : Pending) : list UpdateRequest :=
  map (request_for p)
    (filter (fun c => pending_get p c ≠ ∅) categories).

(** ** Executions *)

Inductive api_call : Type :=
| InitializeRepository (path : string)
| CreateFeatureBranch (branch_type description : string)
| CommitChanges (files : list string) (commit_type scope description : string)
| PushBranch (set_upstream : bool)
| CreatePullRequest (title body : string) (labels : option (list string))
| ProcessUpdate (update_type : string) (files : list string)
    (description : string)
| OnModified (event : FsEvent)
| OnCreated (event : FsEvent)
| ProcessPendingChanges.

Section Executions.
Context {W : Type} `{External W}.

Definition run_call (c : api_call) : M W unit :=
  match c with
  | InitializeRepository path => initialize_repository path
  | CreateFeatureBranch bt d => let* _ := create_feature_branch bt d in ret tt
  | CommitChanges files ty scope d => commit_changes files ty scope d
  | PushBranch up => push_branch up
  | CreatePullRequest t b l => let* _ := create_pull_request t b l in ret tt
  | ProcessUpdate ut files d => let* _ := process_update ut files d in ret tt
  | OnModified e => on_modified e
  | OnCreated e => on_created e
  | ProcessPendingChanges => process_pending_changes
  end.

(** The states an execution can be in: the two objects are constructed, any
    public method is called (an exception leaves the state it was raised
    in), the world changes under the process, or the agent assigns
    [manager.repo_path] directly as [AutonomousAgent.initialize] does. *)
Inductive reachable (c : Config) : Sys W -> Prop :=
| reach_new m mon w :
    new_manager c = Ok m ->
    reachable c (Build_Sys m mon w [] [] [])
| reach_call s call :
    reachable c s -> reachable c (snd (run_call call s))
| reach_world s w :
    reachable c s -> reachable c (with_world (fun _ => w) s)
| reach_repo_path s p :
    reachable c s -> reachable c (with_manager (set_repo_path (Some p)) s).

(** [b] is unset or a name that [create_feature_branch] can build. *)
Definition built (c : Config) (b : option string) : Prop :=
  b = None \/
  exists bt d ts n, b = Some n /\ branch_name_for c bt d ts = Ok n.

(** No name that the configured templates can build is protected. *)
Definition templates_safe (c : Config) : Prop :=
  forall bt d ts n,
    branch_name_for c bt d ts = Ok n -> n ∉ protected_branches c.

Definition event_ok (c : Config) (e : Event) : Prop :=
  built c (ev_branch e) /\
  (is_push e = true -> is_protected c (ev_branch e) = false).

Definition Inv (c : Config) (s : Sys W) : Prop :=
  config (manager s) = c /\
  built c (current_branch (manager s)) /\
  Forall (event_ok c) (trace s).

(** The git executable is installed; the gh executable is not. *)
Definition git_present : Prop :=
  forall w cwd command, fst (spawn w cwd ("git" :: command)) <> NoSuchProgram.

Definition gh_absent : Prop :=
  forall w cwd args, fst (spawn w cwd ("gh" :: args)) = NoSuchProgram.

Definition git_event (m : Manager) (command : list string) : Event :=
  {| ev_argv := "git" :: command; ev_cwd := repo_path m;
     ev_branch := current_branch m |}.

(** *** Judgments used in the proofs *)

(** [s'] extends [s]: same objects, and the processes started since all
    satisfy [Q]. *)
Definition grows (Q : Event -> Prop) (s s' : Sys W) : Prop :=
  manager s' = manager s /\ monitor s' = monitor s /\
  emitted s' = emitted s /\
  exists evs, trace s' = trace s ++ evs /\ Forall Q evs.

(** From a state whose manager is [m], [X] only extends the state, and an
    exception it raises satisfies [E]. *)
Definition spec (m : Manager) (Q : Event -> Prop) (E : exn -> Prop) {A}
    (X : M W A) : Prop :=
  forall s, manager s = m ->
    grows Q s (snd (X s)) /\ (forall e, fst (X s) = Raise e -> E e).

Definition rel (R : Sys W -> Sys W -> Prop) {A} (X : M W A) : Prop :=
  forall s, R s (snd (X s)).

Definition quiet (m : Manager) (e : Event) : Prop :=
  ev_branch e = current_branch m /\ is_push e = false /\ is_commit e = false.

Definition guarded (m : Manager) (e : Event) : Prop :=
  ev_branch e = current_branch m /\
  (is_push e = true -> is_protected (config m) (current_branch m) = false).

Definition keeps (s s' : Sys W) : Prop :=
  monitor s' = monitor s /\ emitted s' = emitted s.

Definition maintains (c : Config) (s s' : Sys W) : Prop :=
  Inv c s -> Inv c s'.

Definition any_exn (e : exn) : Prop := True.
Definition no_exn (e : exn) : Prop := False.

(** The log only grows. *)
Definition journal_grows (s s' : Sys W) : Prop :=
  exists lines, journal s' = journal s ++ lines.

(** A missing git executable is either excluded or an accepted exception. *)
Definition missing_ok (E : exn -> Prop) : Prop :=
  git_present \/ E FileNotFoundError.

(** [push_branch] passes both of its checks at [m]. *)
Definition pushable (m : Manager) : Prop :=
  exists n, current_branch m = Some n /\ n <> EmptyString /\
            n ∉ protected_branches (config m).

(** [s1] is [s] after one process ran: the event [e] was appended, the
    world is [w], and the journal may have grown; nothing else changed. *)
Definition after_run (e : Event) (w : W) (s s1 : Sys W) : Prop :=
  manager s1 = manager s /\ monitor s1 = monitor s /\
  emitted s1 = emitted s /\ trace s1 = trace s ++ [e] /\ world s1 = w.

(** The probe [create_pull_request] starts with. *)
Definition probe_event (m : Manager) : Event :=
  {| ev_argv := ["gh"; "--version"]; ev_cwd := None;
     ev_branch := current_branch m |}.

(** What [process_update] may start, for any guard that leaves the manager
    alone. *)
Definition update_event_ok (s : Sys W) (update_type description : string)
    (e : Event) : Prop :=
  (is_push e = true ->
   is_protected (config (manager s)) (ev_branch e) = false) /\
  (is_commit e = true ->
   exists n,
     branch_name_for (config (manager s))
       (Py.dict_get branch_type_map update_type "feature") description
       (strftime_now (world s)) = Ok n /\
     ev_branch e = Some n).

End Executions.

(** ** Runs of the public methods *)

(** The state after a sequence of calls; a call that raises leaves the
    state it raised in, and the next call goes on from there. *)
Definition run_calls {W} `{External W} (calls : list api_call) (s : Sys W)
  : Sys W :=
  fold_left (fun st call => snd (run_call call st)) calls s.

(** The key 'fix' of [pending_changes] holds nothing and no update of that
    category was emitted. *)
Definition fix_unused {W} (s : Sys W) : Prop :=
  p_fix (pending_changes (monitor s)) = ∅ /\
  Forall (fun u => ur_category u <> CFix) (emitted s).

(** ** The commands of the workflow *)

(** The command lines [process_update] can start when given [files]. *)
Definition workflow_command (files : list string) (argv : list string)
  : Prop :=
  argv = ["git"; "branch"; "--show-current"] \/
  argv = ["git"; "fetch"; "origin"] \/
  (exists n,
      argv = ["git"; "checkout"; "-b"; n] \/
      argv = ["git"; "checkout"; "-b"; n; "origin/main"] \/
      argv = ["git"; "push"; "-u"; "origin"; n]) \/
  (exists f, f ∈ files /\ argv = ["git"; "add"; f]) \/
  (exists msg, argv = ["git"; "commit"; "-m"; msg]) \/
  argv = ["gh"; "--version"] \/
  (exists args, argv = "gh" :: "pr" :: "create" :: args).

(** Such a command, started in the directory [p] or, for the probe, in the
    directory of the process itself. *)
Definition workflow_event (p : option string) (files : list string)
    (e : Event) : Prop :=
  workflow_command files (ev_argv e) /\
  ev_cwd e = if decide (ev_argv e = ["gh"; "--version"]) then None else p.

(** [s'] is [s] with the manager still pointed at the same directory and
    only workflow commands started since. *)
Definition stays_in {W} (files : list string) (s s' : Sys W) : Prop :=
  repo_path (manager s') = repo_path (manager s) /\
  exists evs,
    trace s' = trace s ++ evs /\
    Forall (workflow_event (repo_path (manager s)) files) evs.

(** * Proofs *)

(** ** Rules of the judgments *)

Section Rules.
Context {W : Type} `{External W}.

Lemma grows_refl (Q : Event -> Prop) (s : Sys W) : grows Q s s.
Proof.
  repeat split; trivial. exists []. split; [now rewrite app_nil_r | constructor].
Qed.

Lemma grows_trans (Q : Event -> Prop) (s1 s2 s3 : Sys W) :
  grows Q s1 s2 -> grows Q s2 s3 -> grows Q s1 s3.
Proof.
  intros (Hm1 & Ho1 & He1 & evs1 & Ht1 & HQ1) (Hm2 & Ho2 & He2 & evs2 & Ht2 & HQ2).
  repeat split; try congruence.
  exists (evs1 ++ evs2). split.
  - rewrite Ht2, Ht1. now rewrite <- app_assoc.
  - apply Forall_app; auto.
Qed.

Lemma grows_weaken (Q Q' : Event -> Prop) (s s' : Sys W) :
  (forall e, Q e -> Q' e) -> grows Q s s' -> grows Q' s s'.
Proof.
  intros HQ (Hm & Ho & He & evs & Ht & Hall).
  repeat split; trivial. exists evs. split; trivial.
  eapply Forall_impl; eauto.
Qed.

Section SpecRules.
Variables (m : Manager) (Q : Event -> Prop) (E : exn -> Prop).

Lemma spec_ret {A} (a : A) : spec m Q E (ret a : M W A).
Proof. intros s _. split; [apply grows_refl | discriminate]. Qed.

Lemma spec_gets {A} (f : Sys W -> A) : spec m Q E (gets f).
Proof. intros s _. split; [apply grows_refl | discriminate]. Qed.

Lemma spec_raise {A} (e : exn) : E e -> spec m Q E (raise e : M W A).
Proof.
  intros He s _. split; [apply grows_refl |].
  intros e' [= <-]. exact He.
Qed.

Lemma spec_lift {A} (r : result A) :
  (forall e, r = Raise e -> E e) -> spec m Q E (lift r : M W A).
Proof. intros Hr s _. split; [apply grows_refl | exact Hr]. Qed.

Lemma spec_log (l : level) (msg : string) :
  spec m Q E (log l msg : M W unit).
Proof.
  intros s _. split; [| discriminate].
  repeat split; trivial. exists []. split; [now rewrite app_nil_r | constructor].
Qed.

Lemma spec_bind {A B} (X : M W A) (k : A -> M W B) :
  spec m Q E X -> (forall a, spec m Q E (k a)) -> spec m Q E (bind X k).
Proof.
  intros HX Hk s Hm. unfold bind.
  destruct (HX s Hm) as [Hg He].
  destruct (X s) as [[a | e] s1]; simpl in *.
  - assert (Hm1 : manager s1 = m) by (destruct Hg; congruence).
    destruct (Hk a s1 Hm1) as [Hg1 He1]. split; [| exact He1].
    eapply grows_trans; eauto.
  - split; [exact Hg |]. intros e' [= <-]. now apply He.
Qed.

Lemma spec_self {A B} (f : Manager -> A) (k : A -> M W B) :
  spec m Q E (k (f m)) -> spec m Q E (bind (self f) k).
Proof.
  intros Hk s Hm. unfold bind, self, gets. rewrite Hm. apply Hk, Hm.
Qed.

Lemma spec_try {A} (E' : exn -> Prop) (X : M W A)
    (handler : exn -> option (M W A)) :
  spec m Q E' X ->
  (forall e, E' e ->
     match handler e with
     | Some k => spec m Q E k
     | None => E e
     end) ->
  spec m Q E (try_except X handler).
Proof.
  intros HX Hh s Hm. unfold try_except.
  destruct (HX s Hm) as [Hg He].
  destruct (X s) as [[a | e] s1]; simpl in *.
  - split; [exact Hg | discriminate].
  - specialize (Hh e (He e eq_refl)).
    destruct (handler e) as [k |].
    + assert (Hm1 : manager s1 = m) by (destruct Hg; congruence).
      destruct (Hh s1 Hm1) as [Hg1 He1]. split; [| exact He1].
      eapply grows_trans; eauto.
    + split; [exact Hg |]. intros e' [= <-]. exact Hh.
Qed.

Lemma spec_for_each {A} (l : list A) (body : A -> M W unit) :
  (forall x, spec m Q E (body x)) -> spec m Q E (for_each l body).
Proof.
  intros Hb. induction l as [| x l IH]; simpl.
  - apply spec_ret.
  - apply spec_bind; [apply Hb | intros _; exact IH].
Qed.

Lemma spec_subprocess (argv : list string) (cwd : option string)
    (check : bool) :
  Q {| ev_argv := argv; ev_cwd := cwd; ev_branch := current_branch m |} ->
  (forall w, fst (spawn w cwd argv) = NoSuchProgram -> E FileNotFoundError) ->
  (forall w rc out err,
      check = true -> fst (spawn w cwd argv) = Exited rc out err ->
      rc <> 0%Z -> E (CalledProcessError rc out err)) ->
  spec m Q E (subprocess_run argv cwd check).
Proof.
  intros HQ Hmiss Hfail s Hm. unfold subprocess_run.
  specialize (Hmiss (world s)). specialize (Hfail (world s)).
  destruct (spawn (world s) cwd argv) as [[rc out err |] w']; simpl in *.
  - assert (Hg : grows Q s (Build_Sys (manager s) (monitor s) w'
                 (trace s ++ [{| ev_argv := argv; ev_cwd := cwd;
                                 ev_branch := current_branch (manager s) |}])
                 (journal s) (emitted s))).
    { repeat split; trivial. eexists. split; [reflexivity |].
      constructor; [| constructor]. now rewrite Hm. }
    destruct check; simpl.
    + destruct (Z.eqb_spec rc 0); simpl.
      * split; [exact Hg | discriminate].
      * split; [exact Hg |]. intros e [= <-]. now apply (Hfail rc out err).
    + split; [exact Hg | discriminate].
  - split.
    + repeat split; trivial. eexists. split; [reflexivity |].
      constructor; [| constructor]. now rewrite Hm.
    + intros e [= <-]. now apply Hmiss.
Qed.

End SpecRules.

Lemma spec_weaken (m : Manager) (Q Q' : Event -> Prop) (E E' : exn -> Prop)
    {A} (X : M W A) :
  (forall e, Q e -> Q' e) -> (forall e, E e -> E' e) ->
  spec m Q E X -> spec m Q' E' X.
Proof.
  intros HQ HE HX s Hm. destruct (HX s Hm) as [Hg He]. split.
  - eapply grows_weaken; eauto.
  - intros e Hr. auto.
Qed.

Lemma quiet_guarded (m : Manager) (e : Event) : quiet m e -> guarded m e.
Proof. intros (Hb & Hp & _). split; [exact Hb | congruence]. Qed.

Section RelRules.
Variable R : Sys W -> Sys W -> Prop.
Hypothesis R_refl : forall s, R s s.
Hypothesis R_trans : forall s1 s2 s3, R s1 s2 -> R s2 s3 -> R s1 s3.

Lemma rel_ret {A} (a : A) : rel R (ret a : M W A).
Proof. intros s. apply R_refl. Qed.

Lemma rel_gets {A} (f : Sys W -> A) : rel R (gets f).
Proof. intros s. apply R_refl. Qed.

Lemma rel_self {A} (f : Manager -> A) : rel R (self f : M W A).
Proof. intros s. apply R_refl. Qed.

Lemma rel_raise {A} (e : exn) : rel R (raise e : M W A).
Proof. intros s. apply R_refl. Qed.

Lemma rel_lift {A} (r : result A) : rel R (lift r : M W A).
Proof. intros s. apply R_refl. Qed.

Lemma rel_modify (f : Sys W -> Sys W) :
  (forall s, R s (f s)) -> rel R (modify f).
Proof. intros Hf s. apply Hf. Qed.

Lemma rel_bind {A B} (X : M W A) (k : A -> M W B) :
  rel R X -> (forall a, rel R (k a)) -> rel R (bind X k).
Proof.
  intros HX Hk s. unfold bind. specialize (HX s).
  destruct (X s) as [[a | e] s1]; simpl in *; trivial.
  eapply R_trans; [exact HX | apply Hk].
Qed.

Lemma rel_try {A} (X : M W A) (handler : exn -> option (M W A)) :
  rel R X ->
  (forall e k, handler e = Some k -> rel R k) ->
  rel R (try_except X handler).
Proof.
  intros HX Hh s. unfold try_except. specialize (HX s).
  destruct (X s) as [[a | e] s1]; simpl in *; trivial.
  destruct (handler e) as [k |] eqn:Hk; simpl; trivial.
  eapply R_trans; [exact HX | eapply Hh; eauto].
Qed.

Lemma rel_for_each {A} (l : list A) (body : A -> M W unit) :
  (forall x, rel R (body x)) -> rel R (for_each l body).
Proof.
  intros Hb. induction l as [| x l IH]; simpl.
  - apply rel_ret.
  - apply rel_bind; [apply Hb | intros _; exact IH].
Qed.

End RelRules.

Lemma keeps_refl (s : Sys W) : keeps s s.
Proof. split; reflexivity. Qed.

Lemma keeps_trans (s1 s2 s3 : Sys W) : keeps s1 s2 -> keeps s2 s3 -> keeps s1 s3.
Proof. intros [? ?] [? ?]. split; congruence. Qed.

Lemma maintains_refl (c : Config) (s : Sys W) : maintains c s s.
Proof. intros Hi. exact Hi. Qed.

Lemma maintains_trans (c : Config) (s1 s2 s3 : Sys W) :
  maintains c s1 s2 -> maintains c s2 s3 -> maintains c s1 s3.
Proof. unfold maintains. auto. Qed.

(** A method that leaves the manager alone keeps the two objects of the
    accumulator and maintains the invariant. *)
Lemma spec_keeps (Q : Manager -> Event -> Prop) (E : exn -> Prop) {A}
    (X : M W A) :
  (forall m, spec m (Q m) E X) -> rel keeps X.
Proof.
  intros HX s. destruct (HX (manager s) s eq_refl) as [(_ & Ho & He & _) _].
  split; assumption.
Qed.

Lemma spec_maintains (c : Config) (E : exn -> Prop) {A} (X : M W A) :
  (forall m, spec m (guarded m) E X) -> rel (maintains c) X.
Proof.
  intros HX s (Hc & Hb & Ht).
  destruct (HX (manager s) s eq_refl) as [(Hm & _ & _ & evs & Hevs & Hall) _].
  unfold Inv. rewrite Hm, Hevs.
  split; [exact Hc |]. split; [exact Hb |].
  apply Forall_app. split; [exact Ht |].
  eapply Forall_impl; [exact Hall |].
  intros e [Hbr Hpush]. split.
  - now rewrite Hbr.
  - intros Hp. rewrite Hbr, <- Hc. auto.
Qed.

End Rules.

(** ** The methods of the manager, one judgment each *)

Section Methods.
Context {W : Type} `{External W}.

Lemma bind_gets {A B} (f : Sys W -> A) (k : A -> M W B) (s : Sys W) :
  bind (gets f) k s = k (f s) s.
Proof. reflexivity. Qed.

Lemma bind_self {A B} (f : Manager -> A) (k : A -> M W B) (s : Sys W) :
  bind (self f) k s = k (f (manager s)) s.
Proof. reflexivity. Qed.

Lemma bind_lift_ok {A B} (r : result A) (a : A) (k : A -> M W B) (s : Sys W) :
  r = Ok a -> bind (lift r) k s = k a s.
Proof. intros ->. reflexivity. Qed.

Lemma bind_lift_raise {A B} (r : result A) (e : exn) (k : A -> M W B)
    (s : Sys W) :
  r = Raise e -> bind (lift r) k s = (Raise e, s).
Proof. intros ->. reflexivity. Qed.

Lemma bind_log {B} (l : level) (msg : string) (k : unit -> M W B)
    (s : Sys W) :
  bind (log l msg) k s =
  k tt (Build_Sys (manager s) (monitor s) (world s) (trace s)
          (journal s ++ [(l, msg)]) (emitted s)).
Proof. reflexivity. Qed.

Lemma run_git_spec (m : Manager) (Q : Event -> Prop) (E : exn -> Prop)
    (command : list string) (check : bool) :
  Q (git_event m command) -> missing_ok E ->
  spec m Q E (_run_git_command command check).
Proof.
  intros HQ Hmiss. unfold _run_git_command.
  apply spec_try with
    (E' := fun e =>
       match e with
       | CalledProcessError _ _ _ => True
       | FileNotFoundError => E FileNotFoundError
       | _ => False
       end).
  - apply spec_self. apply spec_subprocess.
    + exact HQ.
    + intros w Hw. destruct Hmiss as [Hgit | HE]; [| exact HE].
      now destruct (Hgit w (repo_path m) command).
    + intros; exact I.
  - intros [msg | key | | rc out err] He; simpl; try contradiction; trivial.
    apply spec_bind; [apply spec_log | intros _; apply spec_ret].
Qed.

Lemma ensure_spec (m : Manager) (E : exn -> Prop) :
  missing_ok E -> spec m (quiet m) E _ensure_not_on_main.
Proof.
  intros Hmiss. unfold _ensure_not_on_main.
  apply spec_bind.
  - apply run_git_spec; [repeat split | exact Hmiss].
  - intros [[rc out] err]. apply spec_self.
    destruct (bool_decide _); [| apply spec_ret].
    apply spec_bind; [apply spec_gets | intros stamp].
    apply spec_bind; [apply spec_log | intros _].
    apply spec_bind; [| intros _; apply spec_ret].
    apply run_git_spec; [repeat split | exact Hmiss].
Qed.

Lemma stage_spec (m : Manager) (E : exn -> Prop) (files : list string) :
  missing_ok E ->
  spec m (quiet m) E
    (for_each files (fun file =>
       let* _ := _run_git_command ["add"; file] true in ret tt)).
Proof.
  intros Hmiss. apply spec_for_each. intros file.
  apply spec_bind; [| intros _; apply spec_ret].
  apply run_git_spec; [repeat split | exact Hmiss].
Qed.

Lemma commit_with_spec (m : Manager) (E : exn -> Prop) (guard : M W unit)
    (files : list string) (commit_type scope description : string) :
  missing_ok E ->
  spec m (guarded m) E guard ->
  (forall e,
      str_format (commit_format (config m))
        [("type", commit_type); ("scope", scope);
         ("description", description)] = Raise e -> E e) ->
  spec m (guarded m) E
    (commit_changes_with guard files commit_type scope description).
Proof.
  intros Hmiss Hguard Hfmt. unfold commit_changes_with.
  apply spec_bind; [exact Hguard | intros _].
  apply spec_bind.
  { eapply spec_weaken; [apply quiet_guarded | | apply stage_spec; eauto].
    auto. }
  intros _. apply spec_self.
  apply spec_bind; [apply spec_lift; exact Hfmt | intros msg].
  apply spec_bind; [apply spec_log | intros _].
  apply spec_bind; [| intros _; apply spec_ret].
  apply run_git_spec; [| exact Hmiss].
  split; [reflexivity | discriminate].
Qed.

Lemma push_spec (m : Manager) (E : exn -> Prop) (set_upstream : bool) :
  missing_ok E ->
  pushable m \/ (forall msg, E (ValueError msg)) ->
  spec m (guarded m) E (push_branch set_upstream).
Proof.
  intros Hmiss Hval. unfold push_branch. apply spec_self.
  assert (Hraise : forall msg, ~ pushable m ->
            spec m (guarded m) E (raise (ValueError msg) : M W unit)).
  { intros msg Hn. apply spec_raise. destruct Hval as [Hp | HE]; [| apply HE].
    now destruct Hn. }
  destruct (current_branch m) as [[| c n] |] eqn:Hcur.
  - apply Hraise. intros (n & Hn & Hne & _). congruence.
  - apply spec_self.
    destruct (bool_decide_reflect
                (String c n ∈ protected_branches (config m))) as [Hin | Hout].
    + apply Hraise. intros (n' & Hn & _ & Hnot). congruence.
    + apply spec_bind; [apply spec_log | intros _].
      apply spec_bind; [| intros _; apply spec_ret].
      apply run_git_spec; [| exact Hmiss].
      split; [reflexivity |]. intros _. rewrite Hcur. simpl.
      now apply bool_decide_eq_false.
  - apply Hraise. intros (n & Hn & _). congruence.
Qed.

Lemma pr_body_spec (m : Manager) (Q : Event -> Prop) (E : exn -> Prop)
    (update_type : string) (files : list string) (description : string) :
  spec m Q E (_generate_pr_body update_type files description : M W string).
Proof. unfold _generate_pr_body. apply spec_self. apply spec_ret. Qed.

Lemma pull_request_spec (m : Manager) (title body : string)
    (labels : option (list string)) :
  spec m (quiet m) any_exn (create_pull_request title body labels).
Proof.
  unfold create_pull_request. apply spec_bind.
  - apply spec_try with (E' := any_exn).
    + apply spec_bind; [| intros _; apply spec_ret].
      apply spec_subprocess; [repeat split | intros; exact I | intros; exact I].
    + intros [msg | key | | rc out err] _; simpl; try exact I;
        (apply spec_bind; [apply spec_log | intros _; apply spec_ret]).
  - intros available. destruct (negb available); [apply spec_ret |].
    apply spec_self. apply spec_bind; [apply spec_log | intros _].
    apply spec_self. apply spec_bind.
    + apply spec_subprocess; [repeat split | intros; exact I | intros; exact I].
    + intros [[rc out] err]. destruct (rc =? 0)%Z;
        (apply spec_bind; [apply spec_log | intros _; apply spec_ret]).
Qed.

End Methods.

(** ** The methods that assign to the manager, and the accumulator *)

Ltac rel_go refl trans :=
  repeat lazymatch goal with
    | |- rel _ (bind _ _) => apply (rel_bind _ trans); [| intros ?]
    | |- rel _ (ret _) => apply (rel_ret _ refl)
    | |- rel _ (gets _) => apply (rel_gets _ refl)
    | |- rel _ (self _) => apply (rel_self _ refl)
    | |- rel _ (raise _) => apply (rel_raise _ refl)
    | |- rel _ (lift _) => apply (rel_lift _ refl)
    | |- rel _ (for_each _ _) => apply (rel_for_each _ refl trans); intros ?
    end.

Section Compound.
Context {W : Type} `{External W}.

Lemma keeps_same (s s' : Sys W) :
  monitor s' = monitor s -> emitted s' = emitted s -> keeps s s'.
Proof. intros Hm He. split; assumption. Qed.

Lemma maintains_same (c : Config) (s s' : Sys W) :
  manager s' = manager s -> trace s' = trace s -> maintains c s s'.
Proof.
  intros Hm Ht (Hc & Hb & Hall). unfold Inv. rewrite Hm, Ht. auto.
Qed.

Lemma log_keeps (l : level) (msg : string) : rel keeps (log l msg : M W unit).
Proof. intros s. now apply keeps_same. Qed.

Lemma log_maintains (c : Config) (l : level) (msg : string) :
  rel (maintains c) (log l msg : M W unit).
Proof. intros s. now apply maintains_same. Qed.

Lemma run_git_general (m : Manager) (command : list string) :
  is_push (git_event m command) = false ->
  spec m (guarded m) any_exn (_run_git_command command true).
Proof.
  intros Hp. apply run_git_spec; [| right; exact I].
  split; [reflexivity | congruence].
Qed.

Lemma set_branch_maintains (c : Config) (n : string) :
  built c (Some n) ->
  rel (maintains c)
    (modify (with_manager (set_current_branch (Some n))) : M W unit).
Proof.
  intros Hn s (Hc & Hb & Hall). repeat split; trivial.
Qed.

Lemma real_guard_spec (m : Manager) :
  spec m (guarded m) any_exn _ensure_not_on_main.
Proof.
  apply (spec_weaken m (quiet m) (guarded m) any_exn any_exn).
  - apply quiet_guarded.
  - auto.
  - apply ensure_spec. right. exact I.
Qed.

Lemma pull_request_guarded (m : Manager) (title body : string)
    (labels : option (list string)) :
  spec m (guarded m) any_exn (create_pull_request title body labels).
Proof.
  apply (spec_weaken m (quiet m) (guarded m) any_exn any_exn).
  - apply quiet_guarded.
  - auto.
  - apply pull_request_spec.
Qed.

Lemma create_keeps (branch_type description : string) :
  rel keeps (create_feature_branch branch_type description).
Proof.
  unfold create_feature_branch. rel_go (@keeps_refl W) (@keeps_trans W).
  - apply log_keeps.
  - apply (spec_keeps guarded any_exn). intros m.
    now apply run_git_general.
  - apply (spec_keeps guarded any_exn). intros m.
    now apply run_git_general.
  - intros s. now apply keeps_same.
Qed.

Lemma create_maintains (c : Config) (branch_type description : string) :
  rel (maintains c) (create_feature_branch branch_type description).
Proof.
  intros s HInv. unfold create_feature_branch.
  rewrite bind_gets, bind_self.
  destruct (branch_name_for (config (manager s)) branch_type description
              (strftime_now (world s))) as [n | e] eqn:Hn.
  - rewrite (bind_lift_ok _ n _ _ eq_refl).
    assert (Hb : built c (Some n)).
    { right. exists branch_type, description, (strftime_now (world s)), n.
      destruct HInv as (<- & _). auto. }
    revert s HInv Hn.
    match goal with
    | |- forall s, Inv c s -> _ -> Inv c (snd (?X s)) =>
        assert (HX : rel (maintains c) X)
    end.
    { rel_go (@maintains_refl W _ c) (@maintains_trans W _ c).
      - apply log_maintains.
      - apply (spec_maintains c any_exn). intros m. now apply run_git_general.
      - apply (spec_maintains c any_exn). intros m. now apply run_git_general.
      - now apply set_branch_maintains. }
    intros s HInv _. now apply HX.
  - rewrite (bind_lift_raise _ e _ _ eq_refl). exact HInv.
Qed.

Lemma initialize_keeps (path : string) :
  rel keeps (initialize_repository path).
Proof.
  unfold initialize_repository. rel_go (@keeps_refl W) (@keeps_trans W).
  - intros s. now apply keeps_same.
  - destruct (negb _); rel_go (@keeps_refl W) (@keeps_trans W); try apply log_keeps.
    apply (spec_keeps guarded any_exn). intros m.
    apply spec_subprocess; [split; [reflexivity | discriminate] | |];
      intros; exact I.
  - apply (spec_keeps guarded any_exn). intros m. apply real_guard_spec.
Qed.

Lemma initialize_maintains (c : Config) (path : string) :
  rel (maintains c) (initialize_repository path).
Proof.
  unfold initialize_repository. rel_go (@maintains_refl W _ c) (@maintains_trans W _ c).
  - intros s (Hc & Hb & Hall). repeat split; trivial.
  - destruct (negb _); rel_go (@maintains_refl W _ c) (@maintains_trans W _ c);
      try apply log_maintains.
    apply (spec_maintains c any_exn). intros m.
    apply spec_subprocess; [split; [reflexivity | discriminate] | |];
      intros; exact I.
  - apply (spec_maintains c any_exn). intros m. apply real_guard_spec.
Qed.

(** Every step of [process_update] after the branch was created. *)
Lemma after_create_spec (m : Manager) (guard : M W unit)
    (files : list string) (commit_type scope description : string) :
  spec m (guarded m) any_exn guard ->
  spec m (guarded m) any_exn
    (commit_changes_with guard files commit_type scope description).
Proof.
  intros Hg. apply commit_with_spec; [right; exact I | exact Hg |].
  intros; exact I.
Qed.

Lemma process_update_keeps (guard : M W unit) (update_type : string)
    (files : list string) (description : string) :
  (forall m, spec m (guarded m) any_exn guard) ->
  rel keeps (process_update_with guard update_type files description).
Proof.
  intros Hg. unfold process_update_with. rel_go (@keeps_refl W) (@keeps_trans W).
  - apply log_keeps.
  - apply create_keeps.
  - apply (spec_keeps guarded any_exn). intros m.
    now apply after_create_spec.
  - apply (spec_keeps guarded any_exn). intros m.
    apply push_spec; right; [exact I | intros; exact I].
  - apply (spec_keeps guarded any_exn). intros m.
    apply pr_body_spec.
  - apply (spec_keeps quiet any_exn). intros m.
    apply pull_request_spec.
Qed.

Lemma process_update_maintains (c : Config) (guard : M W unit)
    (update_type : string) (files : list string) (description : string) :
  (forall m, spec m (guarded m) any_exn guard) ->
  rel (maintains c)
    (process_update_with guard update_type files description).
Proof.
  intros Hg. unfold process_update_with.
  rel_go (@maintains_refl W _ c) (@maintains_trans W _ c).
  - apply log_maintains.
  - apply create_maintains.
  - apply (spec_maintains c any_exn). intros m. now apply after_create_spec.
  - apply (spec_maintains c any_exn). intros m.
    apply push_spec; right; [exact I | intros; exact I].
  - apply (spec_maintains c any_exn). intros m. apply pr_body_spec.
  - apply (spec_maintains c any_exn). intros m. apply pull_request_guarded.
Qed.

End Compound.

(** ** The invariant of every execution *)

Section Invariant.
Context {W : Type} `{External W}.

Lemma monitor_write_maintains (c : Config) (f : Monitor -> Monitor) :
  rel (maintains c) (modify (with_monitor f) : M W unit).
Proof. intros s. now apply maintains_same. Qed.

Lemma emit_maintains (c : Config) (u : UpdateRequest) :
  rel (maintains c) (emit u : M W unit).
Proof. intros s. now apply maintains_same. Qed.

Lemma on_modified_maintains (c : Config) (event : FsEvent) :
  rel (maintains c) (on_modified event).
Proof.
  unfold on_modified.
  destruct (is_directory event); [apply (rel_ret _ (maintains_refl c)) |].
  destruct (_should_ignore_file _); [apply (rel_ret _ (maintains_refl c)) |].
  unfold _get_file_hash.
  apply (rel_bind _ (maintains_trans c)); [apply (rel_gets _ (maintains_refl c)) |].
  intros new_hash.
  apply (rel_bind _ (maintains_trans c)); [apply (rel_gets _ (maintains_refl c)) |].
  intros old_hash.
  destruct (negb _); [| apply (rel_ret _ (maintains_refl c))].
  rel_go (@maintains_refl W _ c) (@maintains_trans W _ c);
    try apply monitor_write_maintains.
  apply log_maintains.
Qed.

Lemma category_changes_maintains (c : Config) (category : Category)
    (files : list string) :
  rel (maintains c) (_process_category_changes category files).
Proof.
  unfold _process_category_changes.
  apply (rel_bind _ (maintains_trans c)); [apply emit_maintains | intros _].
  apply (rel_try _ (maintains_trans c)).
  - apply (rel_bind _ (maintains_trans c));
      [apply (rel_self _ (maintains_refl c)) | intros configured].
    apply (rel_bind _ (maintains_trans c));
      [apply (rel_gets _ (maintains_refl c)) | intros repo].
    apply (rel_bind _ (maintains_trans c)).
    { destruct configured; [apply (rel_ret _ (maintains_refl c)) |].
      apply initialize_maintains. }
    intros _.
    apply (rel_bind _ (maintains_trans c)).
    { apply process_update_maintains. apply real_guard_spec. }
    intros result. destruct (String.eqb _ _); apply log_maintains.
  - intros e k [= <-]. apply log_maintains.
Qed.

Lemma pending_changes_maintains (c : Config) :
  rel (maintains c) process_pending_changes.
Proof.
  unfold process_pending_changes.
  apply (rel_bind _ (maintains_trans c));
    [apply (rel_gets _ (maintains_refl c)) | intros current_time].
  apply (rel_bind _ (maintains_trans c));
    [apply (rel_gets _ (maintains_refl c)) | intros last].
  apply (rel_bind _ (maintains_trans c));
    [apply (rel_gets _ (maintains_refl c)) | intros delay].
  destruct (Qltb _ _); [apply (rel_ret _ (maintains_refl c)) |].
  apply (rel_bind _ (maintains_trans c)).
  - apply (rel_for_each _ (maintains_refl c) (maintains_trans c)).
    intros category.
    apply (rel_bind _ (maintains_trans c));
      [apply (rel_gets _ (maintains_refl c)) | intros files].
    destruct (bool_decide _); [| apply (rel_ret _ (maintains_refl c))].
    apply (rel_bind _ (maintains_trans c));
      [apply category_changes_maintains | intros _].
    apply monitor_write_maintains.
  - intros _.
    apply (rel_bind _ (maintains_trans c));
      [apply monitor_write_maintains | intros _].
    intros s. now apply maintains_same.
Qed.

Lemma run_call_maintains (c : Config) (call : api_call) :
  rel (maintains c) (run_call call).
Proof.
  destruct call; simpl.
  - apply initialize_maintains.
  - apply (rel_bind _ (maintains_trans c));
      [apply create_maintains | intros _; apply (rel_ret _ (maintains_refl c))].
  - apply (spec_maintains c any_exn). intros m.
    apply after_create_spec, real_guard_spec.
  - apply (spec_maintains c any_exn). intros m.
    apply push_spec; right; [exact I | intros; exact I].
  - apply (rel_bind _ (maintains_trans c));
      [| intros _; apply (rel_ret _ (maintains_refl c))].
    apply (spec_maintains c any_exn). intros m. apply pull_request_guarded.
  - apply (rel_bind _ (maintains_trans c));
      [| intros _; apply (rel_ret _ (maintains_refl c))].
    apply process_update_maintains. apply real_guard_spec.
  - apply on_modified_maintains.
  - unfold on_created. destruct (negb _);
      [apply on_modified_maintains | apply (rel_ret _ (maintains_refl c))].
  - apply pending_changes_maintains.
Qed.

Lemma reachable_Inv (c : Config) (s : Sys W) : reachable c s -> Inv c s.
Proof.
  induction 1 as [m mon w Hnew | s call _ IH | s w _ IH | s p _ IH].
  - unfold new_manager in Hnew.
    destruct (negb (prevent_main_commit c)); [discriminate |].
    injection Hnew as <-. repeat split; simpl; [now left | constructor].
  - now apply run_call_maintains.
  - revert IH. now apply maintains_same.
  - destruct IH as (Hc & Hb & Hall). repeat split; trivial.
Qed.

Lemma built_safe (c : Config) (b : option string) :
  templates_safe c -> built c b -> is_protected c b = false.
Proof.
  intros Hsafe [-> | (bt & d & ts & n & -> & Hn)]; simpl; trivial.
  apply bool_decide_eq_false. eauto.
Qed.

End Invariant.

(** ** Names built from the templates *)

Lemma append_empty (s : string) : s +:+ EmptyString = s.
Proof.
  induction s as [| c s IH]; [reflexivity |].
  change (String c (s +:+ EmptyString) = String c s). now rewrite IH.
Qed.

Lemma fallback_name {W : Type} `{External W} (c : Config)
    (branch_type description timestamp : string) :
  branch_strategy c !! (branch_type +:+ "_pattern") = None ->
  branch_name_for c branch_type description timestamp =
  Ok ("feature/" +:+ timestamp +:+ "-" +:+
      Py.replace_char " " "-" (Py.lower description)).
Proof.
  intros Hnone. unfold branch_name_for. rewrite Hnone. simpl.
  unfold str_format. simpl. now rewrite append_empty.
Qed.

(** On a plain pattern the substitution either succeeds or stops at a name
    that is not among the keywords. *)
Lemma plain_pattern_errors (kw : list (string * string)) (s : string)
    (field : option string) (e : exn) :
  plain_from s field = true -> format_from kw s field = Raise e ->
  exists name, e = KeyError name.
Proof.
  remember (String.length s) as n eqn:Hn.
  assert (Hle : (String.length s <= n)%nat) by lia. clear Hn.
  revert s field e Hle.
  induction n as [| n IH]; intros s field e Hle Hplain Hraise;
    (destruct s as [| c r];
     [destruct field; discriminate | cbn [String.length] in Hle; try lia]).
  assert (Hr : (String.length r <= n)%nat) by lia.
  assert (Hnext : forall t f e', (String.length t <= String.length r)%nat ->
                    plain_from t f = true -> format_from kw t f = Raise e' ->
                    exists name, e' = KeyError name)
    by (intros t f e' Ht; apply IH; lia).
  clear IH Hle Hr.
  cbn [plain_from format_from] in Hplain, Hraise.
  destruct field as [name |].
  - destruct (Ascii.eqb c "}").
    + apply andb_prop in Hplain as [_ Hplain].
      destruct (Py.kw_lookup kw name); [| injection Hraise as <-; eauto].
      destruct (format_from kw r None) eqn:Hrest; [discriminate |].
      injection Hraise as <-. now apply (Hnext r None e0).
    + destruct (Ascii.eqb c "{"); [discriminate |].
      now apply (Hnext r (Some (name +:+ String c EmptyString)) e).
  - destruct (Ascii.eqb c "{"); [| destruct (Ascii.eqb c "}")].
    + destruct r as [| c' r']; [discriminate |].
      destruct (Ascii.eqb c' "{");
        [| now apply (Hnext (String c' r') (Some EmptyString) e)].
      destruct (format_from kw r' None) eqn:Hrest; [discriminate |].
      injection Hraise as <-.
      apply (Hnext r' None e0); [cbn [String.length]; lia | assumption ..].
    + destruct r as [| c' r']; [discriminate |].
      destruct (Ascii.eqb c' "}"); [| discriminate].
      destruct (format_from kw r' None) eqn:Hrest; [discriminate |].
      injection Hraise as <-.
      apply (Hnext r' None e0); [cbn [String.length]; lia | assumption ..].
    + destruct (format_from kw r None) eqn:Hrest; [discriminate |].
      injection Hraise as <-. now apply (Hnext r None e0).
Qed.

Lemma plain_templates_safe {W : Type} `{External W} :
  templates_safe Sim.plain.
Proof.
  intros bt d ts n Hn.
  rewrite fallback_name in Hn by apply lookup_empty.
  injection Hn as <-. simpl.
  intros Hin. repeat (apply elem_of_cons in Hin as [Heq | Hin]; [discriminate |]).
  inversion Hin.
Qed.

(** ** C1 and C5: protected branches and [current_branch] *)

Section Protection.
Context {W : Type} `{External W}.

(** C1 (as amended).  In every execution, a push is never issued while
    [current_branch] is protected.  A commit is issued after the guard has
    looked at the branch git reports, not at [current_branch]; when it is
    issued, [current_branch] is unset or a name built from the configured
    templates, so it is protected only if such a name is. *)
Theorem writes_and_protected_branches (c : Config) (s : Sys W) (e : Event) :
  reachable c s -> e ∈ trace s ->
  (is_push e = true -> is_protected c (ev_branch e) = false) /\
  (is_commit e = true -> built c (ev_branch e)) /\
  (is_commit e = true -> templates_safe c ->
   is_protected c (ev_branch e) = false).
Proof.
  intros Hreach Hin.
  destruct (reachable_Inv c s Hreach) as (_ & _ & Hall).
  rewrite Forall_forall in Hall. destruct (Hall e Hin) as [Hb Hp].
  repeat split; auto. intros _ Hsafe. now apply built_safe.
Qed.

(** C5 (as amended).  [current_branch] is unset when the manager is
    constructed; [create_feature_branch] sets it to the name it returns;
    [_ensure_not_on_main] leaves it as it is, escape branch or not; and in
    every reachable state it is unset or a name built from the configured
    templates, hence not protected when no such name is. *)
Theorem current_branch_lifecycle (c : Config) :
  (forall m, new_manager c = Ok m -> current_branch m = None) /\
  (forall (s : Sys W),
      current_branch (manager (snd (_ensure_not_on_main s))) =
      current_branch (manager s)) /\
  (forall (s : Sys W) bt d n,
      fst (create_feature_branch bt d s) = Ok n ->
      current_branch (manager (snd (create_feature_branch bt d s))) = Some n) /\
  (forall (s : Sys W),
      reachable c s ->
      built c (current_branch (manager s)) /\
      (templates_safe c ->
       is_protected c (current_branch (manager s)) = false)).
Proof.
  repeat split.
  - intros m. unfold new_manager.
    destruct (negb _); [discriminate |]. now intros [= <-].
  - intros s.
    destruct (real_guard_spec (manager s) s eq_refl) as [(Hm & _) _].
    now rewrite Hm.
  - intros s bt d n Hfst.
    destruct (create_feature_branch bt d s) as [r s'] eqn:Hrun.
    simpl in *. subst r. revert Hrun. unfold create_feature_branch.
    rewrite bind_gets, bind_self.
    destruct (branch_name_for _ _ _ _) as [n' | e'];
      [rewrite (bind_lift_ok _ n' _ _ eq_refl)
      | rewrite (bind_lift_raise _ e' _ _ eq_refl); discriminate].
    unfold bind at 1. simpl.
    unfold bind at 1.
    destruct (_run_git_command _ _ _) as [[a1 | e1] s1]; [| discriminate].
    unfold bind at 1.
    destruct (_run_git_command _ _ _) as [[a2 | e2] s2]; [| discriminate].
    simpl. now intros [= <- <-].
  - apply reachable_Inv; assumption.
  - intros Hsafe. apply built_safe; [exact Hsafe |].
    now apply reachable_Inv.
Qed.

End Protection.

(** ** One git command, exactly *)

Section Exact.
Context {W : Type} `{External W}.

Lemma run_git_exact (command : list string) (s : Sys W) :
  exists r s1,
    _run_git_command command true s = (r, s1) /\
    after_run (git_event (manager s) command)
      (snd (spawn (world s) (repo_path (manager s)) ("git" :: command))) s s1 /\
    match r with
    | Ok (rc, out, _) =>
        exists err,
          fst (spawn (world s) (repo_path (manager s)) ("git" :: command)) =
          Exited rc out err
    | Raise e =>
        e = FileNotFoundError /\
        fst (spawn (world s) (repo_path (manager s)) ("git" :: command)) =
        NoSuchProgram
    end.
Proof.
  unfold _run_git_command, try_except. rewrite bind_self.
  unfold subprocess_run, git_event.
  destruct (spawn (world s) (repo_path (manager s)) ("git" :: command))
    as [[rc out err |] w']; simpl.
  - destruct (rc =? 0)%Z; simpl; eexists; eexists;
      (split; [reflexivity |]); (split; [repeat split |]); eauto.
  - eexists; eexists. split; [reflexivity |]. split; [repeat split | auto].
Qed.

Lemma run_git_returns (command : list string) (s : Sys W) :
  git_present ->
  exists a s1,
    _run_git_command command true s = (Ok a, s1) /\
    after_run (git_event (manager s) command)
      (snd (spawn (world s) (repo_path (manager s)) ("git" :: command))) s s1.
Proof.
  intros Hgit.
  destruct (run_git_exact command s) as ([a | e] & s1 & Hrun & Hafter & Hr).
  - eauto.
  - destruct Hr as [_ Hmiss]. now apply Hgit in Hmiss.
Qed.

End Exact.

(** ** C4: creating the branch *)

Section CreateBranch.
Context {W : Type} `{External W}.

Ltac git_step Hgit a s1 Hafter :=
  unfold bind at 1;
  match goal with
  | |- context [_run_git_command ?c true ?st] =>
      let Hrun := fresh "Hrun" in
      destruct (run_git_returns c st Hgit) as (a & s1 & Hrun & Hafter);
      rewrite Hrun; clear Hrun
  end.

Lemma create_returns (s : Sys W) (bt d n : string) :
  git_present ->
  branch_name_for (config (manager s)) bt d (strftime_now (world s)) = Ok n ->
  exists s1,
    create_feature_branch bt d s = (Ok n, s1) /\
    manager s1 = set_current_branch (Some n) (manager s) /\
    trace s1 =
    trace s ++ [git_event (manager s) ["fetch"; "origin"];
                git_event (manager s) ["checkout"; "-b"; n; "origin/main"]].
Proof.
  intros Hgit Hn.
  unfold create_feature_branch. rewrite bind_gets, bind_self.
  rewrite (bind_lift_ok _ n _ _ Hn).
  unfold bind at 1. simpl.
  git_step Hgit a1 s1 Hafter1.
  git_step Hgit a2 s2 Hafter2.
  simpl. eexists. split; [reflexivity |].
  destruct Hafter1 as (Hm1 & _ & _ & Ht1 & _).
  destruct Hafter2 as (Hm2 & _ & _ & Ht2 & _).
  simpl in *. rewrite Hm2, Hm1, Ht2, Ht1, Hm1.
  split; [reflexivity |]. now rewrite <- app_assoc.
Qed.

(** C4 (as amended).  The name is the category's template under
    [workflow_rules.branch_strategy], or the fallback
    [feature/<timestamp>-<slug>], instantiated.  With git installed,
    [create_feature_branch] issues [fetch origin] and
    [checkout -b <name> origin/main], whatever their exit codes, returns the
    name and sets [current_branch] to it. *)
Theorem create_feature_branch_outcome (s : Sys W) (bt d n : string) :
  git_present ->
  branch_name_for (config (manager s)) bt d (strftime_now (world s)) = Ok n ->
  (exists s1,
      create_feature_branch bt d s = (Ok n, s1) /\
      manager s1 = set_current_branch (Some n) (manager s) /\
      trace s1 =
      trace s ++ [git_event (manager s) ["fetch"; "origin"];
                  git_event (manager s) ["checkout"; "-b"; n; "origin/main"]])
  /\
  (forall pattern,
      branch_strategy (config (manager s)) !! (bt +:+ "_pattern")
      = Some pattern ->
      str_format pattern
        [("timestamp", strftime_now (world s));
         ("description", Py.replace_char " " "-" (Py.lower d))] = Ok n)
  /\
  (branch_strategy (config (manager s)) !! (bt +:+ "_pattern") = None ->
   n = "feature/" +:+ strftime_now (world s) +:+ "-" +:+
       Py.replace_char " " "-" (Py.lower d)).
Proof.
  intros Hgit Hn. split; [| split].
  - now apply create_returns.
  - intros pattern Hp. unfold branch_name_for in Hn. now rewrite Hp in Hn.
  - intros Hnone. rewrite fallback_name in Hn by exact Hnone. congruence.
Qed.

End CreateBranch.

Lemma sim_git_present (gh : bool) : @git_present _ (Sim.machine gh).
Proof.
  intros w cwd command. simpl. destruct (Sim.git command w) as [[rc out] r'].
  discriminate.
Qed.

Lemma create_feature_branch_outcome_witness :
  let s := Sim.start Sim.plain (Sim.repo "dev" false []) in
  (@git_present _ (Sim.machine true)) /\
  @branch_name_for _ (Sim.machine true) (config (manager s)) "feature" "Add parser"
    (@strftime_now _ (Sim.machine true) (world s))
  = Ok "feature/20240101-120000-add-parser" /\
  exists s1,
    @create_feature_branch _ (Sim.machine true) "feature" "Add parser" s
    = (Ok "feature/20240101-120000-add-parser", s1) /\
    manager s1 =
    set_current_branch (Some "feature/20240101-120000-add-parser") (manager s).
Proof.
  split; [apply sim_git_present | split; [reflexivity |]].
  destruct (@create_feature_branch_outcome _ (Sim.machine true)
              (Sim.start Sim.plain (Sim.repo "dev" false []))
              "feature" "Add parser" "feature/20240101-120000-add-parser"
              (sim_git_present true) eq_refl) as [(s1 & Hrun & Hm & _) _].
  exists s1. split; assumption.
Defined.

(** C4 as stated fails: with the remote out of reach the fetch exits with
    128, and [create_feature_branch] still returns the name; and with
    [develop] configured as the default branch the new branch is still asked
    from [origin/main]. *)
Lemma create_feature_branch_ignores_failed_fetch :
  let s := Sim.start Sim.plain (Sim.repo "dev" false []) in
  let s' := Sim.start Sim.develop_based (Sim.repo "dev" true []) in
  fst (Sim.run true (world s) (Some "/repo") ["git"; "fetch"; "origin"])
  = Exited 128 EmptyString EmptyString /\
  fst (@create_feature_branch _ (Sim.machine true) "feature" "Add parser" s)
  = Ok "feature/20240101-120000-add-parser" /\
  default_branch (config (manager s')) = "develop" /\
  map ev_argv
    (trace (snd (@create_feature_branch _ (Sim.machine true)
                   "feature" "Add parser" s')))
  = [["git"; "fetch"; "origin"];
     ["git"; "checkout"; "-b"; "feature/20240101-120000-add-parser";
      "origin/main"]].
Proof. vm_compute. repeat split. Qed.

(** ** C2: the push-time check *)

Section PushGuard.
Context {W : Type} `{External W}.

Lemma create_effect (bt d : string) (s : Sys W) :
  exists r s1,
    create_feature_branch bt d s = (r, s1) /\
    config (manager s1) = config (manager s) /\
    (exists evs, trace s1 = trace s ++ evs /\ Forall (quiet (manager s)) evs) /\
    (forall n, r = Ok n ->
       branch_name_for (config (manager s)) bt d (strftime_now (world s))
       = Ok n /\
       current_branch (manager s1) = Some n).
Proof.
  unfold create_feature_branch. rewrite bind_gets, bind_self.
  destruct (branch_name_for (config (manager s)) bt d
              (strftime_now (world s))) as [n | e].
  - rewrite (bind_lift_ok _ n _ _ eq_refl).
    unfold bind at 1. simpl. unfold bind at 1.
    match goal with
    | |- context [_run_git_command ?c true ?st] =>
        destruct (run_git_exact c st) as (r1 & s1 & -> & Ha1 & _)
    end.
    destruct Ha1 as (Hm1 & _ & _ & Ht1 & _). simpl in Hm1, Ht1.
    assert (Hq : forall c,
               is_push (git_event (manager s) c) = false ->
               is_commit (git_event (manager s) c) = false ->
               quiet (manager s) (git_event (manager s) c))
      by (intros; repeat split; assumption).
    destruct r1 as [a1 | e1].
    + unfold bind at 1.
      match goal with
      | |- context [_run_git_command ?c true ?st] =>
          destruct (run_git_exact c st) as (r2 & s2 & -> & Ha2 & _)
      end.
      destruct Ha2 as (Hm2 & _ & _ & Ht2 & _). rewrite Hm1 in Hm2, Ht2.
      assert (Hevs : Forall (quiet (manager s))
                [git_event (manager s) ["fetch"; "origin"];
                 git_event (manager s) ["checkout"; "-b"; n; "origin/main"]])
        by (repeat constructor).
      destruct r2 as [a2 | e2]; simpl; eexists; eexists;
        (split; [reflexivity |]); simpl; rewrite ?Hm2, Ht2, Ht1, <- app_assoc;
        (split; [reflexivity |]); (split; [eauto |]).
      * intros n' [= <-]. auto.
      * discriminate.
    + eexists; eexists. split; [reflexivity |]. rewrite Hm1, Ht1.
      split; [reflexivity |]. split; [| discriminate].
      eexists. split; [reflexivity |]. repeat constructor.
  - rewrite (bind_lift_raise _ e _ _ eq_refl).
    eexists; eexists. split; [reflexivity |]. split; [reflexivity |].
    split; [| discriminate].
    exists []. split; [now rewrite app_nil_r | constructor].
Qed.

Lemma process_update_events (guard : M W unit) (update_type : string)
    (files : list string) (description : string) (s : Sys W) :
  (forall m, spec m (guarded m) any_exn guard) ->
  exists evs,
    trace (snd (process_update_with guard update_type files description s))
    = trace s ++ evs /\
    Forall (update_event_ok s update_type description) evs.
Proof.
  intros Hguard. unfold process_update_with.
  unfold bind at 1. simpl. unfold bind at 1.
  match goal with
  | |- context [create_feature_branch ?bt ?d ?st] =>
      destruct (create_effect bt d st)
        as (r & s1 & -> & Hcfg & (evs1 & Ht1 & Hq1) & Hok)
  end.
  simpl in Hcfg, Ht1, Hq1, Hok.
  assert (Hevs1 : Forall (update_event_ok s update_type description) evs1).
  { eapply Forall_impl; [exact Hq1 |].
    intros e (_ & Hp & Hc). split; congruence. }
  destruct r as [n | e]; cbv beta iota zeta; [| exists evs1; auto].
  destruct (Hok n eq_refl) as [Hn Hcur].
  match goal with
  | |- context [snd (?X s1)] =>
      assert (Hspec : spec (manager s1) (guarded (manager s1)) any_exn X)
  end.
  { apply spec_bind; [apply after_create_spec, Hguard | intros _].
    apply spec_bind;
      [apply push_spec; right; [exact I | intros; exact I] | intros _].
    apply spec_bind; [apply pr_body_spec | intros body].
    apply spec_bind; [apply pull_request_guarded | intros url].
    apply spec_ret. }
  destruct (Hspec s1 eq_refl) as [(_ & _ & _ & evs2 & Ht2 & Hq2) _].
  exists (evs1 ++ evs2). split.
  - rewrite Ht2, Ht1. now rewrite <- app_assoc.
  - apply Forall_app. split; [exact Hevs1 |].
    eapply Forall_impl; [exact Hq2 |].
    intros e [Hb Hp]. split.
    + intros He. rewrite Hb, <- Hcfg. auto.
    + intros _. exists n. split; [exact Hn | congruence].
Qed.

(** C2 (as amended).  With the guard replaced by a stub that does nothing,
    [process_update] still never issues a push while [current_branch] is
    protected: the check inside [push_branch] suffices for the push.  The
    commit is issued before that check runs, with [current_branch] equal to
    the name just built, protected or not. *)
Theorem push_check_covers_push_only (update_type : string)
    (files : list string) (description : string) (s : Sys W) :
  exists evs,
    trace (snd (process_update_with (ret tt) update_type files description s))
    = trace s ++ evs /\
    forall e, e ∈ evs ->
      (is_push e = true ->
       is_protected (config (manager s)) (ev_branch e) = false) /\
      (is_commit e = true ->
       exists n,
         branch_name_for (config (manager s))
           (Py.dict_get branch_type_map update_type "feature") description
           (strftime_now (world s)) = Ok n /\
         ev_branch e = Some n).
Proof.
  destruct (process_update_events (ret tt) update_type files description s)
    as (evs & Ht & Hall).
  - intros m. apply spec_ret.
  - exists evs. split; [exact Ht |].
    intros e He. rewrite Forall_forall in Hall. exact (Hall e He).
Qed.

End PushGuard.

Lemma push_check_covers_push_only_witness :
  let s := Sim.start Sim.plain (Sim.repo "main" true ["a.txt"]) in
  let e := {| ev_argv := ["git"; "push"; "-u"; "origin";
                          "feature/20240101-120000-add-parser"];
              ev_cwd := Some "/repo";
              ev_branch := Some "feature/20240101-120000-add-parser" |} in
  (e ∈ trace (snd (@process_update_with _ (Sim.machine true) (ret tt)
                     "feature" ["a.txt"] "Add parser" s))) /\
  is_push e = true /\
  is_protected (config (manager s)) (ev_branch e) = false.
Proof.
  destruct (@push_check_covers_push_only _ (Sim.machine true)
              "feature" ["a.txt"] "Add parser"
              (Sim.start Sim.plain (Sim.repo "main" true ["a.txt"])))
    as (evs & Ht & Hall).
  assert (Hin : {| ev_argv := ["git"; "push"; "-u"; "origin";
                               "feature/20240101-120000-add-parser"];
                   ev_cwd := Some "/repo";
                   ev_branch := Some "feature/20240101-120000-add-parser" |}
                ∈ evs).
  { change (trace (Sim.start Sim.plain (Sim.repo "main" true ["a.txt"])) ++ evs)
      with evs in Ht.
    rewrite <- Ht. vm_compute. repeat constructor. }
  split; [rewrite Ht; exact Hin |]. split; [reflexivity |].
  exact (proj1 (Hall _ Hin) eq_refl).
Defined.

(** C2 as stated fails: with the guard stubbed out and the main line checked
    out, an update whose branch name comes out as [main] is committed while
    [current_branch] is [main], and lands on [main]; only the push is
    blocked. *)
Lemma stubbed_guard_commits_on_protected_branch :
  let run :=
    @process_update_with _ (Sim.machine true) (ret tt)
      "feature" ["a.txt"] "main"
      (Sim.start Sim.bare (Sim.repo "main" true ["a.txt"])) in
  fst run
  = Raise (ValueError "BLOCKED: Cannot push to protected branch 'main'") /\
  filter (fun e => is_commit e = true) (trace (snd run))
  = [{| ev_argv := ["git"; "commit"; "-m"; "feature(core): main"];
        ev_cwd := Some "/repo"; ev_branch := Some "main" |}] /\
  is_protected Sim.bare (Some "main") = true /\
  Sim.commits (world (snd run))
  = [("main", "feature(core): main", ["a.txt"])].
Proof. vm_compute. repeat split. Qed.

(** ** C3: committing *)

Section Commit.
Context {W : Type} `{External W}.

Lemma stage_exact (files : list string) (s : Sys W) :
  git_present ->
  exists s1,
    for_each files (fun file =>
      let* _ := _run_git_command ["add"; file] true in ret tt) s
    = (Ok tt, s1) /\
    manager s1 = manager s /\
    trace s1 =
    trace s ++ map (fun file => git_event (manager s) ["add"; file]) files.
Proof.
  intros Hgit. revert s. induction files as [| file files IH]; intros s; simpl.
  - exists s. split; [reflexivity |]. split; [reflexivity |].
    now rewrite app_nil_r.
  - unfold bind at 1. unfold bind at 1.
    destruct (run_git_returns ["add"; file] s Hgit)
      as (a & s0 & -> & Hm0 & _ & _ & Ht0 & _).
    simpl. destruct (IH s0) as (s1 & -> & Hm1 & Ht1).
    exists s1. split; [reflexivity |]. split; [congruence |].
    rewrite Ht1, Ht0, Hm0. now rewrite <- app_assoc.
Qed.

Lemma commit_exact (files : list string) (ty scope d msg : string)
    (s : Sys W) :
  git_present ->
  str_format (commit_format (config (manager s)))
    [("type", ty); ("scope", scope); ("description", d)] = Ok msg ->
  exists s' evs,
    commit_changes files ty scope d s = (Ok tt, s') /\
    manager s' = manager s /\
    Forall (quiet (manager s)) evs /\
    trace s' =
    trace s ++ evs
      ++ map (fun file => git_event (manager s) ["add"; file]) files
      ++ [git_event (manager s) ["commit"; "-m"; msg]].
Proof.
  intros Hgit Hfmt. unfold commit_changes, commit_changes_with.
  unfold bind at 1.
  destruct (ensure_spec (manager s) no_exn (or_introl Hgit) s eq_refl)
    as [(Hm0 & _ & _ & evs & Ht0 & Hq0) Hnone].
  destruct (_ensure_not_on_main s) as [[[] | e] s0];
    [| destruct (Hnone e eq_refl)].
  simpl in Hm0, Ht0. unfold bind at 1.
  destruct (stage_exact files s0 Hgit) as (s1 & -> & Hm1 & Ht1).
  rewrite bind_self, Hm1, Hm0.
  rewrite (bind_lift_ok _ msg _ _ Hfmt).
  unfold bind at 1. simpl. unfold bind at 1.
  match goal with
  | |- context [_run_git_command ?c true ?st] =>
      destruct (run_git_returns c st Hgit)
        as (a & s2 & -> & Hm2 & _ & _ & Ht2 & _)
  end.
  simpl in Hm2, Ht2. simpl.
  exists s2, evs. split; [reflexivity |]. split; [congruence |].
  split; [exact Hq0 |].
  rewrite Ht2, Ht1, Ht0, Hm1, Hm0. now rewrite <- !app_assoc.
Qed.

(** C3 (as amended).  [commit_changes] raises no commit error.  With git
    installed it issues the guard's commands, one [git add] per listed path
    (none for an empty list) and one [git commit], and returns normally
    whatever their exit codes, leaving the manager, and so
    [current_branch], as it was. *)
Theorem commit_changes_returns_normally (files : list string)
    (ty scope d msg : string) (s : Sys W) :
  git_present ->
  str_format (commit_format (config (manager s)))
    [("type", ty); ("scope", scope); ("description", d)] = Ok msg ->
  exists s' evs,
    commit_changes files ty scope d s = (Ok tt, s') /\
    current_branch (manager s') = current_branch (manager s) /\
    Forall (fun e => is_commit e = false) evs /\
    trace s' =
    trace s ++ evs
      ++ map (fun file => git_event (manager s) ["add"; file]) files
      ++ [git_event (manager s) ["commit"; "-m"; msg]].
Proof.
  intros Hgit Hfmt.
  destruct (commit_exact files ty scope d msg s Hgit Hfmt)
    as (s' & evs & Hrun & Hm & Hq & Ht).
  exists s', evs. split; [exact Hrun |]. split; [now rewrite Hm |].
  split; [| exact Ht].
  eapply Forall_impl; [exact Hq |]. now intros e (_ & _ & Hc).
Qed.

End Commit.

Lemma commit_changes_returns_normally_witness :
  let s := Sim.start Sim.plain (Sim.repo "dev" true []) in
  (@git_present _ (Sim.machine true)) /\
  @str_format _ (Sim.machine true) (commit_format (config (manager s)))
    [("type", "feat"); ("scope", "core"); ("description", "x")]
  = Ok "feat(core): x" /\
  exists s',
    @commit_changes _ (Sim.machine true) [] "feat" "core" "x" s = (Ok tt, s')
    /\ current_branch (manager s') = current_branch (manager s).
Proof.
  split; [apply sim_git_present | split; [reflexivity |]].
  destruct (@commit_changes_returns_normally _ (Sim.machine true)
              [] "feat" "core" "x" "feat(core): x"
              (Sim.start Sim.plain (Sim.repo "dev" true []))
              (sim_git_present true) eq_refl)
    as (s' & evs & Hrun & Hcur & _).
  exists s'. split; assumption.
Defined.

(** C3 as stated fails: staging a path that does not exist (git exits with
    128) and committing with nothing staged (git exits with 1) both end in a
    normal return; and with a path staged beforehand, an empty path list
    does create a commit. *)
Lemma commit_changes_raises_no_error :
  let s := Sim.start Sim.plain (Sim.repo "dev" true []) in
  let s' := Sim.start Sim.plain Sim.staged in
  fst (Sim.run true (world s) (Some "/repo") ["git"; "add"; "missing.txt"])
  = Exited 128 EmptyString EmptyString /\
  fst (@commit_changes _ (Sim.machine true)
         ["missing.txt"] "feat" "core" "x" s) = Ok tt /\
  fst (Sim.run true (world s) (Some "/repo")
         ["git"; "commit"; "-m"; "feat(core): x"])
  = Exited 1 EmptyString EmptyString /\
  fst (@commit_changes _ (Sim.machine true) [] "feat" "core" "x" s) = Ok tt /\
  Sim.commits
    (world (snd (@commit_changes _ (Sim.machine true)
                   [] "feat" "core" "x" s')))
  = [("dev", "feat(core): x", ["b.txt"])].
Proof. vm_compute. repeat split. Qed.

Example empty_commit_in_reference_repo :
  let s := Sim.start Sim.plain (Sim.repo "dev" true []) in
  let s' := snd (@commit_changes _ (Sim.machine true) [] "feat" "core" "x" s) in
  Sim.commits (world s') = [] /\ Sim.head (world s') = "dev" /\
  journal s' = [(INFO, "Committing: feat(core): x");
                (ERROR, "Git command failed: commit -m feat(core): x")].
Proof. vm_compute. repeat split. Qed.

(** ** C9: the hosting CLI is absent *)

Section HostingCli.
Context {W : Type} `{External W}.

Lemma push_returns (n : string) (s : Sys W) :
  git_present ->
  current_branch (manager s) = Some n ->
  n <> EmptyString ->
  n ∉ protected_branches (config (manager s)) ->
  exists s1,
    push_branch true s = (Ok tt, s1) /\
    manager s1 = manager s /\
    trace s1 = trace s ++ [git_event (manager s) ["push"; "-u"; "origin"; n]].
Proof.
  intros Hgit Hcur Hne Hnot. unfold push_branch.
  rewrite bind_self, Hcur. destruct n as [| c n]; [congruence |].
  rewrite bind_self.
  rewrite (bool_decide_eq_false_2 _ Hnot).
  unfold bind at 1. simpl. unfold bind at 1.
  match goal with
  | |- context [_run_git_command ?c true ?st] =>
      destruct (run_git_returns c st Hgit)
        as (a & s1 & -> & Hm1 & _ & _ & Ht1 & _)
  end.
  simpl in Hm1, Ht1. simpl. exists s1. auto.
Qed.

Lemma pr_body_returns (update_type : string) (files : list string)
    (description : string) (s : Sys W) :
  exists body,
    _generate_pr_body update_type files description s = (Ok body, s).
Proof. unfold _generate_pr_body. rewrite bind_self. eexists. reflexivity. Qed.

Lemma pull_request_without_gh (title body : string)
    (labels : option (list string)) (s : Sys W) :
  gh_absent ->
  exists s1,
    create_pull_request title body labels s = (Ok None, s1) /\
    manager s1 = manager s /\
    trace s1 = trace s ++ [probe_event (manager s)] /\
    world s1 = snd (spawn (world s) None ["gh"; "--version"]).
Proof.
  intros Hgh. unfold create_pull_request.
  unfold bind at 1. unfold try_except. unfold bind at 1.
  unfold subprocess_run. specialize (Hgh (world s) None ["--version"]).
  destruct (spawn (world s) None ["gh"; "--version"]) as [r w'].
  simpl in Hgh. subst r. simpl. eexists. repeat split.
Qed.

(** C9.  With gh absent, [create_pull_request] returns no URL after the one
    probe [gh --version].  An update whose earlier steps go through (git is
    installed, the two format strings are well formed, the branch name
    passes the check of [push_branch]) then ends in a result with status
    [failed], returned normally; after the commit and the push only that
    probe is started, so nothing undoes the branch or the commit. *)
Theorem update_without_hosting_cli (update_type : string)
    (files : list string) (description n msg : string) (s : Sys W) :
  gh_absent -> git_present ->
  let bt := Py.dict_get branch_type_map update_type "feature" in
  let m := set_current_branch (Some n) (manager s) in
  branch_name_for (config (manager s)) bt description
    (strftime_now (world s)) = Ok n ->
  n <> EmptyString ->
  n ∉ protected_branches (config (manager s)) ->
  str_format (commit_format (config (manager s)))
    [("type", bt); ("scope", _determine_scope files);
     ("description", description)] = Ok msg ->
  (forall title body labels (s0 : Sys W),
      fst (create_pull_request title body labels s0) = Ok None) /\
  exists r s' evs,
    process_update update_type files description s = (Ok r, s') /\
    branch r = n /\ pr_url r = None /\ status r = "failed" /\
    current_branch (manager s') = Some n /\
    Forall (fun e => is_commit e = false /\ is_push e = false) evs /\
    trace s' =
    trace s ++ evs
      ++ [git_event m ["commit"; "-m"; msg];
          git_event m ["push"; "-u"; "origin"; n];
          probe_event m].
Proof.
  intros Hgh Hgit bt m Hn Hne Hnot Hfmt. split.
  { intros title body labels s0.
    destruct (pull_request_without_gh title body labels s0 Hgh)
      as (s1 & -> & _). reflexivity. }
  unfold process_update, process_update_with.
  rewrite bind_log. cbv zeta. fold bt. unfold bind at 1.
  match goal with
  | |- context [create_feature_branch ?b ?d ?st] =>
      destruct (create_returns st b d n Hgit Hn) as (s1 & -> & Hm1 & Ht1)
  end.
  cbn [manager trace] in Hm1, Ht1. fold m in Hm1.
  assert (Hty : (if negb (String.eqb bt "docs") then bt else "docs") = bt).
  { destruct (String.eqb_spec bt "docs") as [-> | _]; reflexivity. }
  rewrite Hty. unfold bind at 1.
  assert (Hfmt1 : str_format (commit_format (config (manager s1)))
            [("type", bt); ("scope", _determine_scope files);
             ("description", description)] = Ok msg)
    by (now rewrite Hm1).
  destruct (commit_exact files bt (_determine_scope files) description msg
              s1 Hgit Hfmt1) as (s2 & evs & Hrun & Hm2 & Hq2 & Ht2).
  unfold commit_changes in Hrun. rewrite Hrun. clear Hrun.
  unfold bind at 1.
  assert (Hcur2 : current_branch (manager s2) = Some n)
    by (now rewrite Hm2, Hm1).
  assert (Hnot2 : n ∉ protected_branches (config (manager s2)))
    by (now rewrite Hm2, Hm1).
  destruct (push_returns n s2 Hgit Hcur2 Hne Hnot2) as (s3 & -> & Hm3 & Ht3).
  unfold bind at 1.
  destruct (pr_body_returns update_type files description s3) as (body & ->).
  unfold bind at 1.
  match goal with
  | |- context [create_pull_request ?t ?b ?l ?st] =>
      destruct (pull_request_without_gh t b l st Hgh)
        as (s4 & -> & Hm4 & Ht4 & _)
  end.
  unfold ret.
  eexists; exists s4;
    exists ([git_event (manager s) ["fetch"; "origin"];
             git_event (manager s) ["checkout"; "-b"; n; "origin/main"]]
            ++ evs ++ map (fun file => git_event m ["add"; file]) files).
  split; [reflexivity |]. simpl.
  split; [reflexivity |]. split; [reflexivity |]. split; [reflexivity |].
  split; [now rewrite Hm4, Hm3 |].
  split.
  - constructor; [split; reflexivity |]. constructor; [split; reflexivity |].
    apply Forall_app. split.
    + eapply Forall_impl; [exact Hq2 |]. intros e (_ & Hp & Hc). auto.
    + apply Forall_forall. intros e He.
      apply list_elem_of_fmap in He as (file & -> & _). auto.
  - rewrite Ht4, Ht3, Ht2, Ht1, Hm3, Hm2, Hm1.
    rewrite <- !app_assoc. reflexivity.
Qed.

End HostingCli.

Lemma sim_gh_absent : @gh_absent _ (Sim.machine false).
Proof. intros w cwd args. reflexivity. Qed.

Lemma update_without_hosting_cli_witness :
  let s := Sim.start Sim.plain (Sim.repo "main" true ["a.txt"]) in
  let n := "feature/20240101-120000-add-parser" in
  (@gh_absent _ (Sim.machine false)) /\
  (@git_present _ (Sim.machine false)) /\
  @branch_name_for _ (Sim.machine false) (config (manager s)) "feature" "Add parser"
    (@strftime_now _ (Sim.machine false) (world s)) = Ok n /\
  n <> EmptyString /\
  (n ∉ protected_branches (config (manager s))) /\
  @str_format _ (Sim.machine false) (commit_format (config (manager s)))
    [("type", "feature"); ("scope", _determine_scope ["a.txt"]);
     ("description", "Add parser")] = Ok "feature(core): Add parser" /\
  exists r s',
    @process_update _ (Sim.machine false) "feature" ["a.txt"] "Add parser" s
    = (Ok r, s') /\
    branch r = n /\ pr_url r = None /\ status r = "failed".
Proof.
  assert (Hne : "feature/20240101-120000-add-parser" <> EmptyString)
    by discriminate.
  assert (Hnot : "feature/20240101-120000-add-parser"
                 ∉ protected_branches Sim.plain).
  { intros Hin.
    repeat (apply elem_of_cons in Hin as [Heq | Hin]; [discriminate |]).
    inversion Hin. }
  repeat (split; [first [apply sim_gh_absent | apply sim_git_present
                        | reflexivity | assumption] |]).
  destruct (@update_without_hosting_cli _ (Sim.machine false)
              "feature" ["a.txt"] "Add parser"
              "feature/20240101-120000-add-parser"
              "feature(core): Add parser"
              (Sim.start Sim.plain (Sim.repo "main" true ["a.txt"]))
              sim_gh_absent (sim_git_present false) eq_refl Hne Hnot eq_refl)
    as (_ & r & s' & evs & Hrun & Hb & Hu & Hs & _).
  exists r, s'. repeat split; assumption.
Defined.

(** In the reference repository the branch and the commit are there when
    the update has failed for want of gh. *)
Example branch_and_commit_survive_failed_pr :
  let '(r, s) := Sim.ordinary false in
  option_map status (match r with Ok x => Some x | Raise _ => None end)
  = Some "failed" /\
  Sim.head (world s) = "feature/20240101-120000-add-parser" /\
  Sim.local_branches (world s)
  = ["main"; "dev"; "feature/20240101-120000-add-parser"] /\
  Sim.commits (world s)
  = [("feature/20240101-120000-add-parser", "feature(core): Add parser",
      ["a.txt"])].
Proof. vm_compute. repeat split. Qed.

(** ** C10: pushing before any branch was created *)

Section PushUnset.
Context {W : Type} `{External W}.

(** C10.  With [current_branch] unset, [push_branch] raises
    ["No current branch set"] and the whole state, the world included, is
    what it was: no command was started. *)
Theorem push_without_branch (set_upstream : bool) (s : Sys W) :
  current_branch (manager s) = None ->
  push_branch set_upstream s = (Raise (ValueError "No current branch set"), s).
Proof.
  intros Hcur. unfold push_branch. rewrite bind_self, Hcur. reflexivity.
Qed.

End PushUnset.

Lemma push_without_branch_witness :
  let s := Sim.start Sim.plain (Sim.repo "dev" true []) in
  current_branch (manager s) = None /\
  @push_branch _ (Sim.machine true) true s
  = (Raise (ValueError "No current branch set"), s).
Proof.
  split; [reflexivity |].
  apply (@push_without_branch _ (Sim.machine true)). reflexivity.
Defined.

(** ** C7: ignored paths *)

Section Ignored.
Context {W : Type} `{External W}.

Lemma any_in_intro (patterns : list string) (p s : string) :
  p ∈ patterns -> Py.contains p s = true -> Py.any_in patterns s = true.
Proof.
  intros Hin Hc. unfold Py.any_in. apply existsb_exists.
  exists p. split; [now apply list_elem_of_In | exact Hc].
Qed.

(** C7.  An event for a path in which one of the ignore patterns occurs
    changes nothing: neither the stored hashes nor the pending sets, nor
    any other part of the state. *)
Theorem ignored_event_changes_nothing (event : FsEvent) (pattern : string)
    (s : Sys W) :
  pattern ∈ ignore_patterns ->
  Py.contains pattern (src_path event) = true ->
  on_modified event s = (Ok tt, s) /\
  on_created event s = (Ok tt, s) /\
  file_hashes (monitor (snd (on_modified event s))) = file_hashes (monitor s) /\
  pending_changes (monitor (snd (on_modified event s)))
  = pending_changes (monitor s).
Proof.
  intros Hin Hc.
  assert (Hig : _should_ignore_file (src_path event) = true)
    by (eapply any_in_intro; eauto).
  assert (Hmod : on_modified event s = (Ok tt, s)).
  { unfold on_modified. destruct (is_directory event); [reflexivity |].
    now rewrite Hig. }
  split; [exact Hmod |]. split.
  - unfold on_created. destruct (negb _); [exact Hmod | reflexivity].
  - now rewrite Hmod.
Qed.

End Ignored.

Lemma ignored_event_changes_nothing_witness :
  let event := {| is_directory := false; src_path := "/repo/.git/index" |} in
  let s := Sim.start Sim.plain (Sim.repo "dev" true []) in
  ".git/" ∈ ignore_patterns /\
  Py.contains ".git/" (src_path event) = true /\
  @on_modified _ (Sim.machine true) event s = (Ok tt, s).
Proof.
  assert (Hin : ".git/" ∈ ignore_patterns) by (left).
  split; [exact Hin |]. split; [reflexivity |].
  apply (@ignored_event_changes_nothing _ (Sim.machine true)
           {| is_directory := false; src_path := "/repo/.git/index" |}
           ".git/" (Sim.start Sim.plain (Sim.repo "dev" true []))
           Hin eq_refl).
Defined.

(** ** C8: classification *)

Lemma policy_matches_code (path : string) :
  classify_by_policy path =
  if Py.any_in doc_markers (Py.lower path) then CDocs
  else if Py.any_in config_markers (Py.lower path) then CConfig
  else if Py.any_in script_markers (Py.lower path) then CFeature
  else CFeature.
Proof. reflexivity. Qed.

Lemma occurs_reflect (markers : list string) (path : string) :
  existsb (fun m => contains_ci m path) markers = true <->
  exists m, m ∈ markers /\ contains_ci m path = true.
Proof.
  rewrite existsb_exists. split; intros (m & Hin & Hc); exists m;
    (split; [now apply list_elem_of_In | exact Hc]).
Qed.

Lemma policy_unfolds (path : string) :
  classify_by_policy path =
  if existsb (fun m => contains_ci m path)
       ["readme"; "doc"; markdown_extension; "license"] then CDocs
  else if existsb (fun m => contains_ci m path)
            ("config" :: yaml_extensions ++ [json_extension; ini_extension])
       then CConfig
  else CFeature.
Proof.
  unfold classify_by_policy, classification_policy, first_match.
  destruct (existsb _ _); [reflexivity |].
  destruct (existsb _ _); [reflexivity |].
  destruct (existsb _ _); reflexivity.
Qed.

(** C8.  The category of an accepted path is the label of the first pair of
    the policy one of whose markers occurs in the relative path, compared
    without regard to case: docs when it contains readme, doc, the markdown
    extension or license; otherwise config when it contains config or a
    yaml, json or ini extension; otherwise feature, with or without a shell
    or script marker. *)
Theorem classification_is_first_match (repo filepath rel_path : string) :
  relative_to filepath repo = Ok rel_path ->
  let occurs markers :=
    exists m, m ∈ markers /\ contains_ci m rel_path = true in
  let docs_markers := ["readme"; "doc"; markdown_extension; "license"] in
  let config_like :=
    "config" :: yaml_extensions ++ [json_extension; ini_extension] in
  _categorize_file repo filepath = Ok (classify_by_policy rel_path) /\
  (occurs docs_markers -> _categorize_file repo filepath = Ok CDocs) /\
  (~ occurs docs_markers -> occurs config_like ->
   _categorize_file repo filepath = Ok CConfig) /\
  (~ occurs docs_markers -> ~ occurs config_like ->
   _categorize_file repo filepath = Ok CFeature).
Proof.
  intros Hrel occurs docs_markers config_like.
  assert (Hcode : _categorize_file repo filepath
                  = Ok (classify_by_policy rel_path)).
  { unfold _categorize_file. rewrite Hrel. rewrite policy_matches_code.
    destruct (Py.any_in doc_markers _); [reflexivity |].
    destruct (Py.any_in config_markers _); [reflexivity |].
    destruct (Py.any_in script_markers _); reflexivity. }
  split; [exact Hcode |]. rewrite Hcode, policy_unfolds.
  fold docs_markers. fold config_like.
  destruct (existsb _ docs_markers) eqn:Hd.
  - apply occurs_reflect in Hd. repeat split; trivial; intros Hn; now destruct Hn.
  - assert (Hnd : ~ occurs docs_markers).
    { intros Ho. apply occurs_reflect in Ho. congruence. }
    destruct (existsb _ config_like) eqn:Hc.
    + apply occurs_reflect in Hc.
      repeat split; trivial; intros; contradiction.
    + assert (Hnc : ~ occurs config_like).
      { intros Ho. apply occurs_reflect in Ho. congruence. }
      repeat split; trivial; intros; contradiction.
Qed.

Lemma classification_is_first_match_witness :
  relative_to "/repo/docs/README.md" "/repo" = Ok "docs/README.md" /\
  (exists m, m ∈ ["readme"; "doc"; markdown_extension; "license"] /\
             contains_ci m "docs/README.md" = true) /\
  _categorize_file "/repo" "/repo/docs/README.md" = Ok CDocs.
Proof.
  assert (Ho : exists m, m ∈ ["readme"; "doc"; markdown_extension; "license"]
                         /\ contains_ci m "docs/README.md" = true).
  { exists "readme". split; [left | reflexivity]. }
  split; [reflexivity |]. split; [exact Ho |].
  exact (proj1 (proj2 (classification_is_first_match "/repo"
                         "/repo/docs/README.md" "docs/README.md" eq_refl))
           Ho).
Defined.

Example classification_scenarios :
  _categorize_file "/repo" "/repo/a.yaml" = Ok CConfig /\
  _categorize_file "/repo" "/repo/b.json" = Ok CConfig /\
  _categorize_file "/repo" "/repo/c.txt" = Ok CFeature /\
  _categorize_file "/repo" "/repo/tools/run.sh" = Ok CFeature /\
  _categorize_file "/repo" "/repo/docs/config.yaml" = Ok CDocs /\
  _categorize_file "/repo" "/repo/LICENSE" = Ok CDocs /\
  _categorize_file "/repo" "/repo/Config/Settings.INI" = Ok CConfig.
Proof. vm_compute. repeat split. Qed.

(** ** C1 and C5 on the reference repository *)

Lemma start_reachable (gh : bool) (c : Config) (r : Sim.Repo) :
  prevent_main_commit c = true ->
  @reachable _ (Sim.machine gh) c (Sim.start c r).
Proof.
  intros Hp. unfold Sim.start. apply reach_repo_path. apply reach_new.
  unfold new_manager. now rewrite Hp.
Qed.

Lemma update_reachable (gh : bool) (c : Config) (r : Sim.Repo)
    (ut : string) (files : list string) (d : string) :
  prevent_main_commit c = true ->
  @reachable _ (Sim.machine gh) c
    (snd (@process_update _ (Sim.machine gh) ut files d (Sim.start c r))).
Proof.
  intros Hp.
  pose proof (reach_call (H := Sim.machine gh) c _ (ProcessUpdate ut files d)
                (start_reachable gh c r Hp)) as Hr.
  simpl in Hr. unfold bind in Hr.
  destruct (process_update ut files d (Sim.start c r)) as [[a | e] s'];
    exact Hr.
Qed.

(** C1 as stated fails: when the template makes [main] the name of the new
    branch, [current_branch] is [main] while the commit is issued (the
    checkout of the new branch failed, the guard saw [dev] checked out, and
    the commit landed on [dev]). *)
Lemma commit_issued_while_current_branch_protected :
  let s := Sim.named_main true "dev" in
  let e := {| ev_argv := ["git"; "commit"; "-m"; "feature(core): main"];
              ev_cwd := Some "/repo"; ev_branch := Some "main" |} in
  (@reachable _ (Sim.machine true) Sim.bare s) /\
  (e ∈ trace s) /\ is_commit e = true /\
  is_protected Sim.bare (ev_branch e) = true /\
  Sim.commits (world s) = [("dev", "feature(core): main", ["a.txt"])].
Proof.
  split; [apply update_reachable; reflexivity |].
  split; [| repeat split].
  vm_compute. repeat constructor.
Qed.

(** A template need not be plain to build a protected name: with the
    precision [{description:.4}] the description [mainline] yields [main],
    which becomes [current_branch] and is the value it has when the commit
    is issued.  Such a configuration does not satisfy [templates_safe]. *)
Example precision_template_builds_main :
  let s := snd (@process_update _ clipping "feature" ["a.txt"] "mainline"
                  (Sim.start clipped (Sim.repo "dev" true ["a.txt"]))) in
  let e := {| ev_argv := ["git"; "commit"; "-m"; "feature(core): mainline"];
              ev_cwd := Some "/repo"; ev_branch := Some "main" |} in
  @branch_name_for _ clipping clipped "feature" "mainline" "20240101-120000"
  = Ok "main" /\
  current_branch (manager s) = Some "main" /\
  (e ∈ trace s) /\
  ~ @templates_safe _ clipping clipped.
Proof.
  split; [reflexivity |]. split; [reflexivity |]. split.
  - vm_compute. repeat constructor.
  - intros Hsafe.
    apply (Hsafe "feature" "mainline" "20240101-120000" "main" eq_refl).
    now left.
Qed.

(** The guard itself relies on its checkout succeeding: when the escape
    branch cannot be created, [commit_changes] goes on and the commit lands
    on the protected branch that is checked out. *)
Example failed_escape_commits_on_main :
  let s := snd (@commit_changes _ (Sim.machine true)
                  ["a.txt"] "feat" "core" "x"
                  (Sim.start Sim.plain Sim.crowded)) in
  Sim.head (world s) = "main" /\
  Sim.commits (world s) = [("main", "feat(core): x", ["a.txt"])] /\
  current_branch (manager s) = None.
Proof. vm_compute. repeat split. Qed.

Lemma writes_and_protected_branches_witness :
  let s := snd (Sim.ordinary true) in
  let e := {| ev_argv := ["git"; "commit"; "-m"; "feature(core): Add parser"];
              ev_cwd := Some "/repo";
              ev_branch := Some "feature/20240101-120000-add-parser" |} in
  (@reachable _ (Sim.machine true) Sim.plain s) /\
  (e ∈ trace s) /\
  is_protected Sim.plain (ev_branch e) = false.
Proof.
  assert (Hr : @reachable _ (Sim.machine true) Sim.plain
                 (snd (Sim.ordinary true)))
    by (apply update_reachable; reflexivity).
  assert (Hin : {| ev_argv := ["git"; "commit"; "-m";
                               "feature(core): Add parser"];
                   ev_cwd := Some "/repo";
                   ev_branch := Some "feature/20240101-120000-add-parser" |}
                ∈ trace (snd (Sim.ordinary true)))
    by (vm_compute; repeat constructor).
  split; [exact Hr |]. split; [exact Hin |].
  destruct (@writes_and_protected_branches _ (Sim.machine true) Sim.plain
              _ _ Hr Hin) as (_ & _ & Hsafe).
  exact (Hsafe eq_refl plain_templates_safe).
Defined.

(** C5 as stated fails twice: the escape branch that [_ensure_not_on_main]
    creates is not recorded in [current_branch], and a reachable state can
    have [current_branch] name a protected branch. *)
Lemma current_branch_misses_escape_branch :
  let s := snd (@initialize_repository _ (Sim.machine true) "/repo"
                  (Sim.fresh Sim.plain (Sim.repo "main" true []))) in
  let s' := Sim.named_main true "dev" in
  (@reachable _ (Sim.machine true) Sim.plain s) /\
  Sim.head (world s) = "work/20240101-120000" /\
  current_branch (manager s) = None /\
  (@reachable _ (Sim.machine true) Sim.bare s') /\
  current_branch (manager s') = Some "main" /\
  is_protected Sim.bare (current_branch (manager s')) = true.
Proof.
  split.
  { apply (reach_call (H := Sim.machine true) Sim.plain _
             (InitializeRepository "/repo")).
    now apply reach_new. }
  split; [reflexivity |]. split; [reflexivity |].
  split; [apply update_reachable; reflexivity |].
  vm_compute. split; reflexivity.
Qed.

Lemma current_branch_lifecycle_witness :
  let s := snd (Sim.ordinary true) in
  (@reachable _ (Sim.machine true) Sim.plain s) /\
  @templates_safe _ (Sim.machine true) Sim.plain /\
  current_branch (manager s) = Some "feature/20240101-120000-add-parser" /\
  is_protected Sim.plain (current_branch (manager s)) = false.
Proof.
  assert (Hr : @reachable _ (Sim.machine true) Sim.plain
                 (snd (Sim.ordinary true)))
    by (apply update_reachable; reflexivity).
  split; [exact Hr |]. split; [exact plain_templates_safe |].
  split; [reflexivity |].
  destruct (@current_branch_lifecycle _ (Sim.machine true) Sim.plain)
    as (_ & _ & _ & Hreach).
  exact (proj2 (Hreach _ Hr) plain_templates_safe).
Defined.

(** ** The journal only grows *)

Section Journal.
Context {W : Type} `{External W}.

Lemma journal_refl (s : Sys W) : journal_grows s s.
Proof. exists []. now rewrite app_nil_r. Qed.

Lemma journal_trans (s1 s2 s3 : Sys W) :
  journal_grows s1 s2 -> journal_grows s2 s3 -> journal_grows s1 s3.
Proof.
  intros [l1 H1] [l2 H2]. exists (l1 ++ l2). rewrite H2, H1.
  now rewrite <- app_assoc.
Qed.

Ltac journal_go := rel_go journal_refl journal_trans.

Lemma journal_same (s s' : Sys W) :
  journal s' = journal s -> journal_grows s s'.
Proof. intros Hj. exists []. now rewrite app_nil_r. Qed.

Lemma log_journal (l : level) (msg : string) :
  rel journal_grows (log l msg : M W unit).
Proof. intros s. now exists [(l, msg)]. Qed.

Lemma subprocess_journal (argv : list string) (cwd : option string)
    (check : bool) :
  rel journal_grows (subprocess_run argv cwd check).
Proof.
  intros s. unfold subprocess_run.
  destruct (spawn (world s) cwd argv) as [[rc out err |] w']; simpl;
    [destruct (check && negb (rc =? 0)%Z) |]; now apply journal_same.
Qed.

Lemma run_git_journal (command : list string) (check : bool) :
  rel journal_grows (_run_git_command command check).
Proof.
  unfold _run_git_command. apply (rel_try _ journal_trans).
  - journal_go. apply subprocess_journal.
  - intros [msg | key | | rc out err] k; try discriminate.
    intros [= <-]. journal_go. apply log_journal.
Qed.

Lemma ensure_journal : rel journal_grows _ensure_not_on_main.
Proof.
  unfold _ensure_not_on_main. journal_go; [apply run_git_journal |].
  match goal with
  | a : (Z * string * string)%type |- _ => destruct a as [[rc out] err]
  end.
  journal_go.
  destruct (bool_decide _); journal_go;
    first [apply log_journal | apply run_git_journal].
Qed.

Lemma initialize_journal (path : string) :
  rel journal_grows (initialize_repository path).
Proof.
  unfold initialize_repository. journal_go.
  - intros s. now apply journal_same.
  - destruct (negb _); journal_go;
      first [apply log_journal | apply subprocess_journal].
  - apply ensure_journal.
Qed.






End Journal.

(** ** C6: flushing *)

Lemma Qltb_true (x y : Q) : Qltb x y = true <-> (x < y)%Q.
Proof.
  unfold Qltb. rewrite negb_true_iff. split.
  - intros Hn. apply Qnot_le_lt. intros Hle.
    apply Qle_bool_iff in Hle. congruence.
  - intros Hlt. destruct (Qle_bool y x) eqn:Hb; [| reflexivity].
    apply Qle_bool_iff in Hb. destruct (Qlt_not_le _ _ Hlt Hb).
Qed.

Lemma pending_set_same (c : Category) (p : Pending) :
  pending_get p c = ∅ -> pending_set c ∅ p = p.
Proof. destruct c, p; simpl; intros <-; reflexivity. Qed.

Lemma set_pending_same (m : Monitor) : set_pending (pending_changes m) m = m.
Proof. now destruct m. Qed.

Section Flush.
Context {W : Type} `{External W}.

Lemma category_changes_effect (category : Category) (files : list string)
    (s : Sys W) :
  exists s1,
    _process_category_changes category files s = (Ok tt, s1) /\
    monitor s1 = monitor s /\
    emitted s1 =
    emitted s ++ [{| ur_category := category; ur_files := files;
                     ur_description := describe category files |}].
Proof.
  unfold _process_category_changes. unfold bind at 1.
  unfold emit at 1, modify at 1. cbv beta iota.
  match goal with
  | |- context [try_except ?X ?h ?st] =>
      assert (Hk : rel keeps (try_except X h));
        [| specialize (Hk st); destruct (try_except X h st) as [r s1] eqn:Hrun;
           assert (Hr : r = Ok tt);
           [ revert Hrun; unfold try_except; destruct (X st) as [[[] | e] s'] | ] ]
  end.
  - apply (rel_try _ (@keeps_trans W)).
    + rel_go (@keeps_refl W) (@keeps_trans W).
      * destruct a; [apply (rel_ret _ (@keeps_refl W)) | apply initialize_keeps].
      * apply process_update_keeps. intros m. apply real_guard_spec.
      * destruct (String.eqb _ _); apply log_keeps.
    + intros e k [= <-]. apply log_keeps.
  - now intros [= <- _].
  - simpl. now intros [= <- _].
  - subst r. destruct Hk as [Hm He]. simpl in Hm, He.
    exists s1. auto.
Qed.

Lemma flush_category_effect (category : Category) (s : Sys W) :
  exists s1,
    flush_category category s = (Ok tt, s1) /\
    monitor s1 =
    set_pending (pending_set category ∅ (pending_changes (monitor s)))
      (monitor s) /\
    emitted s1 =
    emitted s ++
    (if decide (pending_get (pending_changes (monitor s)) category ≠ ∅)
     then [request_for (pending_changes (monitor s)) category] else []).
Proof.
  unfold flush_category. rewrite bind_gets.
  destruct (decide (pending_get (pending_changes (monitor s)) category ≠ ∅))
    as [Hne | Heq].
  - rewrite (bool_decide_eq_true_2 _ Hne). unfold bind at 1.
    destruct (category_changes_effect category
                (elements (pending_get (pending_changes (monitor s)) category))
                s) as (s1 & -> & Hm & He).
    eexists. split; [reflexivity |]. simpl. rewrite Hm, He. auto.
  - rewrite (bool_decide_eq_false_2 _ Heq).
    exists s. split; [reflexivity |]. split; [| now rewrite app_nil_r].
    rewrite pending_set_same, set_pending_same; trivial.
    destruct (decide (pending_get (pending_changes (monitor s)) category = ∅));
      [assumption | contradiction].
Qed.

Lemma flush_loop_effect (s : Sys W) :
  exists s1,
    for_each categories flush_category s = (Ok tt, s1) /\
    monitor s1 = set_pending empty_pending (monitor s) /\
    emitted s1 = emitted s ++ flush_requests (pending_changes (monitor s)).
Proof.
  unfold categories. simpl for_each.
  unfold bind at 1.
  destruct (flush_category_effect CFeature s) as (s1 & -> & Hm1 & He1).
  unfold bind at 1.
  destruct (flush_category_effect CDocs s1) as (s2 & -> & Hm2 & He2).
  unfold bind at 1.
  destruct (flush_category_effect CConfig s2) as (s3 & -> & Hm3 & He3).
  unfold bind at 1.
  destruct (flush_category_effect CFix s3) as (s4 & -> & Hm4 & He4).
  exists s4. split; [reflexivity |].
  rewrite Hm3, Hm2, Hm1 in Hm4. rewrite Hm3, Hm2, Hm1 in He4.
  rewrite Hm2, Hm1 in He3. rewrite Hm1 in He2.
  split; [rewrite Hm4; unfold set_pending; simpl; reflexivity |].
  rewrite He4, He3, He2, He1. rewrite <- !app_assoc. f_equal.
  unfold flush_requests, categories.
  rewrite !filter_cons, filter_nil. simpl.
  repeat match goal with
         | |- context [decide (?a ≠ ∅)] => destruct (decide (a ≠ ∅))
         end; reflexivity.
Qed.

End Flush.

Section FlushTheorem.
Context {W : Type} `{External W}.

Lemma flush_inside_window (s : Sys W) :
  (time_now (world s) - last_process_time (monitor s)
   < process_delay (monitor s))%Q ->
  process_pending_changes s = (Ok tt, s).
Proof.
  intros Hlt. apply Qltb_true in Hlt.
  unfold process_pending_changes. rewrite !bind_gets. now rewrite Hlt.
Qed.

Lemma flush_after_window (s : Sys W) :
  ~ (time_now (world s) - last_process_time (monitor s)
     < process_delay (monitor s))%Q ->
  exists s1,
    for_each categories flush_category s = (Ok tt, s1) /\
    monitor s1 = set_pending empty_pending (monitor s) /\
    emitted s1 = emitted s ++ flush_requests (pending_changes (monitor s)) /\
    process_pending_changes s =
    (Ok tt,
     with_world (fun w => save_hashes w (file_hashes (monitor s)))
       (with_monitor (set_last_process_time (time_now (world s))) s1)).
Proof.
  intros Hnot.
  destruct (flush_loop_effect s) as (s1 & Hloop & Hm & He).
  exists s1. repeat (split; [assumption |]).
  unfold process_pending_changes. rewrite !bind_gets.
  destruct (Qltb _ _) eqn:Hb; [now apply Qltb_true in Hb |].
  unfold bind at 1. rewrite Hloop.
  unfold bind at 1. unfold modify at 1. unfold _save_file_hashes, modify.
  simpl. now rewrite Hm.
Qed.




End FlushTheorem.


(** The two scenarios of the specification: three files changed in one
    window, and the single README. *)
Example flush_scenarios :
  let s' := snd (@process_pending_changes _ (Sim.machine false)
                   Sim.three_changes) in
  let readme :=
    snd (@on_modified _ (Sim.machine false)
           {| is_directory := false; src_path := "/repo/docs/README.md" |}
           (Sim.start Sim.plain Sim.watched)) in
  map (fun u => (ur_category u, ur_description u)) (emitted s')
  = [(CFeature, "Update c.txt"); (CConfig, "Update 2 config files")] /\
  pending_changes (monitor s') = empty_pending /\
  Sim.saved (world s') = file_hashes (monitor Sim.three_changes) /\
  flush_requests (pending_changes (monitor readme))
  = [{| ur_category := CDocs; ur_files := ["docs/README.md"];
        ur_description := "Update docs/README.md" |}].
Proof. vm_compute. repeat split. Qed.

(** * Further behaviour of the two files

    What the methods of [workflow-engine.py] and [autonomous-agent.py] do
    at their edges, and what the entry points guarantee. *)

(** ** One git command and the guard *)

Section GitEdges.
Context {W : Type} `{External W}.

(** X1.  [_run_git_command] turns the exit code of git into a return value:
    whatever the code, the triple of code, output and error text is
    returned; a non-zero exit under [check] adds exactly one error line to
    the log; only a missing executable raises. *)
Theorem run_git_returns_exit_codes (command : list string) (check : bool)
    (s : Sys W) :
  let answer := spawn (world s) (repo_path (manager s)) ("git" :: command) in
  let started :=
    Build_Sys (manager s) (monitor s) (snd answer)
      (trace s ++ [git_event (manager s) command]) (journal s) (emitted s) in
  match fst answer with
  | Exited rc out err =>
      _run_git_command command check s =
      (Ok (rc, out, err),
       if check && negb (rc =? 0)%Z
       then Build_Sys (manager s) (monitor s) (snd answer)
              (trace s ++ [git_event (manager s) command])
              (journal s ++
               [(ERROR, "Git command failed: " +:+ Py.join " " command)])
              (emitted s)
       else started)
  | NoSuchProgram =>
      _run_git_command command check s = (Raise FileNotFoundError, started)
  end.
Proof.
  unfold _run_git_command, try_except. rewrite bind_self.
  unfold subprocess_run, git_event.
  destruct (spawn (world s) (repo_path (manager s)) ("git" :: command))
    as [[rc out err |] w']; simpl; [| reflexivity].
  destruct (check && negb (rc =? 0)%Z); reflexivity.
Qed.

(** X2.  [_ensure_not_on_main] looks only at what
    [git branch --show-current] printed, stripped, never at its exit code.
    When that is not a protected name (a failed query that printed nothing
    included) the query is the only command started and the guard returns;
    when it is, the one further command is
    [checkout -b work/<timestamp>]. *)
Theorem guard_follows_reported_branch (rc : Z) (out err : string)
    (s : Sys W) :
  let query := ["branch"; "--show-current"] in
  let answer := spawn (world s) (repo_path (manager s)) ("git" :: query) in
  fst answer = Exited rc out err ->
  (Py.strip out ∉ protected_branches (config (manager s)) ->
   exists s1,
     _ensure_not_on_main s = (Ok tt, s1) /\
     trace s1 = trace s ++ [git_event (manager s) query] /\
     world s1 = snd answer) /\
  (Py.strip out ∈ protected_branches (config (manager s)) ->
   exists r s1,
     _ensure_not_on_main s = (r, s1) /\
     (r = Ok tt \/ r = Raise FileNotFoundError) /\
     manager s1 = manager s /\
     trace s1 =
     trace s ++
     [git_event (manager s) query;
      git_event (manager s)
        ["checkout"; "-b"; "work/" +:+ strftime_now (snd answer)]]).
Proof.
  intros query answer Hans.
  destruct (run_git_exact query s) as (r1 & s1 & Hrun1 & Ha1 & Hr1).
  fold answer in Ha1, Hr1. rewrite Hans in Hr1.
  destruct r1 as [[[rc1 out1] err1] | e1];
    [destruct Hr1 as [err' [= <- <- _]] | now destruct Hr1].
  destruct Ha1 as (Hm1 & _ & _ & Ht1 & Hw1).
  split; intros Hcase; unfold _ensure_not_on_main; fold query;
    unfold bind at 1; rewrite Hrun1; cbv beta iota zeta;
    rewrite bind_self, Hm1;
    destruct (bool_decide_reflect
                (Py.strip out ∈ protected_branches (config (manager s))))
      as [Hin | Hnot]; try contradiction; cbv beta iota.
  - exists s1. auto.
  - rewrite bind_gets, bind_log. unfold bind at 1.
    match goal with
    | |- context [_run_git_command ?c true ?st] =>
        destruct (run_git_exact c st) as (r2 & s2 & -> & Ha2 & Hr2)
    end.
    destruct Ha2 as (Hm2 & _ & _ & Ht2 & _). simpl in Hm2, Ht2.
    rewrite Hm1 in Hm2, Ht2. rewrite Ht1, Hw1, <- app_assoc in Ht2.
    destruct r2 as [a2 | e2].
    + eexists; eexists. split; [reflexivity |]. auto.
    + destruct Hr2 as [-> _].
      eexists; eexists. split; [reflexivity |]. auto.
Qed.

End GitEdges.

Lemma guard_follows_reported_branch_witness :
  let s := Sim.start Sim.plain (Sim.repo "main" true []) in
  let query := ["branch"; "--show-current"] in
  let answer :=
    @spawn _ (Sim.machine true) (world s) (repo_path (manager s))
      ("git" :: query) in
  fst answer = Exited 0 ("main" +:+ nl) EmptyString /\
  (Py.strip ("main" +:+ nl) ∈ protected_branches (config (manager s))) /\
  exists r s1,
    @_ensure_not_on_main _ (Sim.machine true) s = (r, s1) /\
    (r = Ok tt \/ r = Raise FileNotFoundError) /\
    manager s1 = manager s /\
    trace s1 =
    trace s ++
    [git_event (manager s) query;
     git_event (manager s)
       ["checkout"; "-b";
        "work/" +:+ @strftime_now _ (Sim.machine true) (snd answer)]].
Proof.
  assert (Hin : Py.strip ("main" +:+ nl)
                ∈ protected_branches
                    (config (manager (Sim.start Sim.plain
                                        (Sim.repo "main" true [])))))
    by (apply (bool_decide_unpack _); vm_compute; exact I).
  split; [reflexivity |]. split; [exact Hin |].
  exact (proj2 (@guard_follows_reported_branch _ (Sim.machine true)
                  0%Z ("main" +:+ nl) EmptyString
                  (Sim.start Sim.plain (Sim.repo "main" true []))
                  eq_refl) Hin).
Defined.

(** ** Initialising, pushing, opening the pull request *)

Section ManagerEdges.
Context {W : Type} `{External W}.

Lemma initialize_sets_repo_path (path : string) (s : Sys W) :
  repo_path (manager (snd (initialize_repository path s))) = Some path.
Proof.
  unfold initialize_repository. unfold bind at 1. unfold modify at 1.
  cbv beta iota.
  match goal with
  | |- context [snd (?X ?st)] =>
      assert (HX : forall m, spec m (guarded m) any_exn X);
        [| destruct (HX (manager st) st eq_refl) as [(Hm & _) _];
           now rewrite Hm ]
  end.
  intros m. apply spec_bind; [apply spec_gets | intros present].
  apply spec_bind; [| intros _; apply real_guard_spec].
  destruct (negb present).
  - apply spec_bind; [apply spec_log | intros _]. apply spec_self.
    apply spec_bind; [| intros _; apply spec_ret].
    apply spec_subprocess;
      [split; [reflexivity | discriminate] | intros; exact I | intros; exact I].
  - apply spec_log.
Qed.

(** X3.  When the directory is missing and [git clone] exits non-zero,
    [initialize_repository] raises that [CalledProcessError] (the clone is
    not run through [_run_git_command]), having started the clone and
    nothing else: the guard does not run.  In every case the manager is
    left pointing at the path it was given. *)
Theorem failed_clone_stops_initialization (path : string) (rc : Z)
    (out err : string) (s : Sys W) :
  let clone := ["git"; "clone"; remote_url (config (manager s)); path] in
  path_exists (world s) path = false ->
  fst (spawn (world s) None clone) = Exited rc out err ->
  rc <> 0%Z ->
  (exists s1,
      initialize_repository path s = (Raise (CalledProcessError rc out err), s1)
      /\ trace s1 =
         trace s ++ [{| ev_argv := clone; ev_cwd := None;
                        ev_branch := current_branch (manager s) |}]) /\
  (forall s0 : Sys W,
      repo_path (manager (snd (initialize_repository path s0))) = Some path).
Proof.
  intros clone Hmissing Hclone Hrc. split; [| apply initialize_sets_repo_path].
  unfold initialize_repository. unfold bind at 1. unfold modify at 1.
  cbv beta iota. rewrite bind_gets. simpl world. rewrite Hmissing.
  simpl negb. cbv iota. unfold bind at 1. rewrite bind_log, bind_self.
  simpl manager. simpl config. unfold bind at 1. unfold subprocess_run.
  simpl world. fold clone. destruct (spawn (world s) None clone) as [r w'].
  simpl in Hclone. subst r.
  apply Z.eqb_neq in Hrc. rewrite Hrc. simpl.
  eexists. split; reflexivity.
Qed.

(** X4.  [push_branch] by cases on [current_branch]: unset or empty, it
    raises and changes nothing; protected, it raises the blocking error and
    changes nothing; otherwise it starts exactly one process, [git push -u
    origin <branch>] or, without upstream, [git push origin], and only a
    missing git executable makes it raise. *)
Theorem push_branch_by_cases (set_upstream : bool) (s : Sys W) :
  match current_branch (manager s) with
  | None | Some EmptyString =>
      push_branch set_upstream s
      = (Raise (ValueError "No current branch set"), s)
  | Some n =>
      if bool_decide (n ∈ protected_branches (config (manager s))) then
        push_branch set_upstream s
        = (Raise (ValueError ("BLOCKED: Cannot push to protected branch '"
                              +:+ n +:+ "'")), s)
      else
        exists r s1,
          push_branch set_upstream s = (r, s1) /\
          (r = Ok tt \/ r = Raise FileNotFoundError) /\
          manager s1 = manager s /\
          trace s1 =
          trace s ++
          [git_event (manager s)
             (if set_upstream then ["push"; "-u"; "origin"; n]
              else ["push"; "origin"])]
  end.
Proof.
  unfold push_branch. rewrite bind_self.
  destruct (current_branch (manager s)) as [[| c n] |]; try reflexivity.
  rewrite bind_self.
  destruct (bool_decide_reflect
              (String c n ∈ protected_branches (config (manager s))))
    as [Hin | Hnot]; [reflexivity |].
  rewrite bind_log. unfold bind at 1.
  match goal with
  | |- context [_run_git_command ?cmd true ?st] =>
      destruct (run_git_exact cmd st) as (r & s1 & -> & Ha & Hr)
  end.
  destruct Ha as (Hm & _ & _ & Ht & _). simpl in Hm, Ht.
  destruct r as [a | e].
  - eexists; eexists. split; [reflexivity |]. auto.
  - destruct Hr as [-> _]. eexists; eexists. split; [reflexivity |]. auto.
Qed.

End ManagerEdges.

Lemma failed_clone_stops_initialization_witness :
  let s := Sim.fresh Sim.plain (Sim.repo "main" false []) in
  let clone := ["git"; "clone"; remote_url (config (manager s)); "/repo"] in
  @path_exists _ unpopulated (world s) "/repo" = false /\
  fst (@spawn _ unpopulated (world s) None clone)
  = Exited 128 EmptyString EmptyString /\
  exists s1,
    @initialize_repository _ unpopulated "/repo" s
    = (Raise (CalledProcessError 128 EmptyString EmptyString), s1) /\
    trace s1 =
    trace s ++ [{| ev_argv := clone; ev_cwd := None;
                   ev_branch := current_branch (manager s) |}].
Proof.
  split; [reflexivity |]. split; [reflexivity |].
  apply (@failed_clone_stops_initialization _ unpopulated "/repo" 128%Z
           EmptyString EmptyString
           (Sim.fresh Sim.plain (Sim.repo "main" false []))
           eq_refl eq_refl).
  discriminate.
Defined.

Section PullRequest.
Context {W : Type} `{External W}.

Lemma subprocess_exact (argv : list string) (cwd : option string)
    (check : bool) (s : Sys W) :
  subprocess_run argv cwd check s =
  (match fst (spawn (world s) cwd argv) with
   | NoSuchProgram => Raise FileNotFoundError
   | Exited rc out err =>
       if check && negb (rc =? 0)%Z
       then Raise (CalledProcessError rc out err)
       else Ok (rc, out, err)
   end,
   Build_Sys (manager s) (monitor s) (snd (spawn (world s) cwd argv))
     (trace s ++ [{| ev_argv := argv; ev_cwd := cwd;
                     ev_branch := current_branch (manager s) |}])
     (journal s) (emitted s)).
Proof.
  unfold subprocess_run.
  destruct (spawn (world s) cwd argv) as [[rc out err |] w']; simpl;
    [destruct (check && negb (rc =? 0)%Z) |]; reflexivity.
Qed.

(** X5.  When the probe [gh --version] exits with 0, [create_pull_request]
    starts exactly one more process, the [gh pr create] command against the
    configured default branch, in the repository directory; it returns the
    stripped output as the URL when that exits with 0 and nothing
    otherwise, without raising.  When the probe exits non-zero no second
    process is started and nothing is returned. *)
Theorem pull_request_with_gh (title body : string)
    (labels : option (list string)) (s : Sys W) :
  let probe := spawn (world s) None ["gh"; "--version"] in
  let command := pr_command (config (manager s)) title body labels in
  let answer := spawn (snd probe) (repo_path (manager s)) command in
  (forall v e rc out err,
      fst probe = Exited 0 v e ->
      fst answer = Exited rc out err ->
      exists s1,
        create_pull_request title body labels s
        = (Ok (if (rc =? 0)%Z then Some (Py.strip out) else None), s1) /\
        manager s1 = manager s /\
        world s1 = snd answer /\
        trace s1 =
        trace s ++
        [probe_event (manager s);
         {| ev_argv := command; ev_cwd := repo_path (manager s);
            ev_branch := current_branch (manager s) |}]) /\
  (forall rc v e,
      fst probe = Exited rc v e -> rc <> 0%Z ->
      exists s1,
        create_pull_request title body labels s = (Ok None, s1) /\
        world s1 = snd probe /\
        trace s1 = trace s ++ [probe_event (manager s)]).
Proof.
  intros probe command answer. split.
  - intros v e rc out err Hprobe Hanswer.
    unfold create_pull_request. unfold bind at 1. unfold try_except.
    unfold bind at 1. rewrite subprocess_exact. fold probe. rewrite Hprobe.
    change (true && negb (0 =? 0)%Z) with false. cbv beta iota.
    unfold ret at 1. cbv beta iota. change (negb true) with false. cbv iota.
    rewrite bind_self, bind_log, bind_self.
    cbv beta zeta. unfold bind at 1. rewrite subprocess_exact.
    cbn [manager monitor world trace journal emitted].
    fold (pr_command (config (manager s)) title body labels).
    fold command. fold answer. rewrite Hanswer. cbv beta iota.
    change (false && negb (rc =? 0)%Z) with false. cbv iota.
    destruct (rc =? 0)%Z; rewrite bind_log; unfold ret;
      cbn [manager monitor world trace journal emitted];
      eexists; (split; [reflexivity |]);
      cbn [manager monitor world trace journal emitted];
      rewrite <- app_assoc; auto.
  - intros rc v e Hprobe Hrc.
    unfold create_pull_request. unfold bind at 1. unfold try_except.
    unfold bind at 1. rewrite subprocess_exact. fold probe. rewrite Hprobe.
    apply Z.eqb_neq in Hrc. rewrite Hrc.
    change (true && negb false) with true. cbv beta iota.
    rewrite bind_log. unfold ret at 1. cbv beta iota.
    change (negb false) with true. cbv iota. unfold ret.
    eexists. split; [reflexivity |]. split; reflexivity.
Qed.

End PullRequest.

Lemma pull_request_with_gh_witness :
  let s := Sim.start Sim.plain (Sim.repo "dev" true ["a.txt"]) in
  let labels := Some ["feature"; "automated"] in
  let probe := @spawn _ (Sim.machine true) (world s) None ["gh"; "--version"] in
  let answer :=
    @spawn _ (Sim.machine true) (snd probe) (repo_path (manager s))
      (pr_command (config (manager s)) "title" "body" labels) in
  fst probe = Exited 0 "gh version 2.40.0" EmptyString /\
  fst answer = Exited 0 ("https://example.test/pull/1" +:+ nl) EmptyString /\
  exists s1,
    @create_pull_request _ (Sim.machine true) "title" "body" labels s
    = (Ok (Some "https://example.test/pull/1"), s1) /\
    manager s1 = manager s.
Proof.
  split; [reflexivity |]. split; [reflexivity |].
  destruct (proj1 (@pull_request_with_gh _ (Sim.machine true) "title" "body"
                     (Some ["feature"; "automated"])
                     (Sim.start Sim.plain (Sim.repo "dev" true ["a.txt"])))
              "gh version 2.40.0" EmptyString 0%Z
              ("https://example.test/pull/1" +:+ nl) EmptyString
              eq_refl eq_refl) as (s1 & Hrun & Hm & _).
  exists s1. split; [exact Hrun | exact Hm].
Defined.

(** ** What a returned update guarantees *)

Section UpdateResult.
Context {W : Type} `{External W}.

Lemma bind_Ok {A B} (m : M W A) (k : A -> M W B) (s s' : Sys W) (b : B) :
  bind m k s = (Ok b, s') ->
  exists a s1, m s = (Ok a, s1) /\ k a s1 = (Ok b, s').
Proof.
  unfold bind. destruct (m s) as [[a | e] s1]; [eauto | discriminate].
Qed.

Lemma create_ok (bt d n : string) (s s1 : Sys W) :
  create_feature_branch bt d s = (Ok n, s1) ->
  branch_name_for (config (manager s)) bt d (strftime_now (world s)) = Ok n /\
  manager s1 = set_current_branch (Some n) (manager s) /\
  exists evs, trace s1 = trace s ++ evs.
Proof.
  unfold create_feature_branch. rewrite bind_gets, bind_self.
  destruct (branch_name_for (config (manager s)) bt d
              (strftime_now (world s))) as [n' | e] eqn:Hname.
  - rewrite (bind_lift_ok _ n' _ _ eq_refl). rewrite bind_log.
    intros Hrun.
    apply bind_Ok in Hrun as (a1 & s2 & Hfetch & Hrun).
    apply bind_Ok in Hrun as (a2 & s3 & Hcheckout & Hrun).
    destruct (run_git_exact ["fetch"; "origin"]
                (Build_Sys (manager s) (monitor s) (world s) (trace s)
                   (journal s ++ [(INFO, "Creating branch: " +:+ n')])
                   (emitted s)))
      as (r1 & s2' & Hrun1 & (Hm1 & _ & _ & Ht1 & _) & _).
    rewrite Hfetch in Hrun1. injection Hrun1 as _ <-.
    destruct (run_git_exact ["checkout"; "-b"; n'; "origin/main"] s2)
      as (r2 & s3' & Hrun2 & (Hm2 & _ & _ & Ht2 & _) & _).
    rewrite Hcheckout in Hrun2. injection Hrun2 as _ <-.
    injection Hrun as <- <-. simpl in *.
    split; [reflexivity |]. split; [now rewrite Hm2, Hm1 |].
    eexists. rewrite Ht2, Ht1, <- app_assoc. reflexivity.
  - rewrite (bind_lift_raise _ e _ _ eq_refl). discriminate.
Qed.

Lemma push_ok (set_upstream : bool) (s s1 : Sys W) :
  push_branch set_upstream s = (Ok tt, s1) ->
  exists n,
    current_branch (manager s) = Some n /\ n <> EmptyString /\
    (n ∉ protected_branches (config (manager s))) /\
    manager s1 = manager s /\
    trace s1 =
    trace s ++
    [git_event (manager s)
       (if set_upstream then ["push"; "-u"; "origin"; n]
        else ["push"; "origin"])].
Proof.
  unfold push_branch. rewrite bind_self.
  destruct (current_branch (manager s)) as [[| c n] |]; try discriminate.
  rewrite bind_self.
  destruct (bool_decide_reflect
              (String c n ∈ protected_branches (config (manager s))))
    as [Hin | Hnot]; [discriminate |].
  rewrite bind_log. intros Hrun.
  apply bind_Ok in Hrun as (a & s2 & Hgit & Hrun). injection Hrun as <-.
  match type of Hgit with
  | _run_git_command ?cmd true ?st = _ =>
      destruct (run_git_exact cmd st) as (r & s2' & Hrun & Ha & _)
  end.
  rewrite Hgit in Hrun. injection Hrun as _ <-.
  destruct Ha as (Hm & _ & _ & Ht & _). simpl in Hm, Ht.
  exists (String c n). repeat split; try assumption. discriminate.
Qed.

Lemma update_ok (update_type : string)
    (files : list string) (description : string) (r : WorkflowResult)
    (s s1 : Sys W) :
  process_update update_type files description s = (Ok r, s1) ->
  let branch_type := Py.dict_get branch_type_map update_type "feature" in
  branch_name_for (config (manager s)) branch_type description
    (strftime_now (world s)) = Ok (branch r) /\
  manager s1 = set_current_branch (Some (branch r)) (manager s) /\
  branch r <> EmptyString /\
  (branch r ∉ protected_branches (config (manager s))) /\
  git_event (manager s1) ["push"; "-u"; "origin"; branch r] ∈ trace s1 /\
  commit_type r = branch_type /\
  status r = status_of (pr_url r).
Proof.
  intros Hrun bt. unfold process_update, process_update_with in Hrun.
  fold bt in Hrun. clearbody bt. rewrite bind_log in Hrun.
  cbv zeta in Hrun.
  apply bind_Ok in Hrun as (n & s2 & Hcreate & Hrun).
  apply create_ok in Hcreate as (Hname & Hm2 & _).
  apply bind_Ok in Hrun as ([] & s3 & Hcommit & Hrun).
  apply bind_Ok in Hrun as ([] & s4 & Hpush & Hrun).
  apply bind_Ok in Hrun as (body & s5 & Hbody & Hrun).
  apply bind_Ok in Hrun as (url & s6 & Hpr & Hrun).
  injection Hrun as <- <-. cbn [branch commit_type pr_url status].
  cbn [manager world] in Hname, Hm2.
  destruct (commit_with_spec (manager s2) any_exn _ensure_not_on_main files
              (if negb (bt =? "docs")%string then bt else "docs")
              (_determine_scope files) description
              (or_intror I) (real_guard_spec (manager s2)) (fun _ _ => I)
              s2 eq_refl) as [(Hm3 & _ & _ & _) _].
  rewrite Hcommit in Hm3. cbn [snd] in Hm3.
  apply push_ok in Hpush as (n' & Hcur & Hne & Hnot & Hm4 & Ht4).
  rewrite Hm3, Hm2 in Hcur. injection Hcur as <-.
  unfold _generate_pr_body in Hbody. rewrite bind_self in Hbody.
  injection Hbody as _ <-.
  match type of Hpr with
  | create_pull_request ?t ?b ?l _ = _ =>
      destruct (pull_request_spec (manager s4) t b l s4 eq_refl)
        as [(Hm6 & _ & _ & evs & Ht6 & _) _]
  end.
  rewrite Hpr in Hm6, Ht6. cbn [snd] in Hm6, Ht6.
  assert (Hm : manager s6 = set_current_branch (Some n) (manager s))
    by congruence.
  split; [exact Hname |]. split; [exact Hm |]. split; [exact Hne |].
  split; [now rewrite Hm3, Hm2 in Hnot |].
  split.
  - rewrite Ht6, Ht4, Hm6, Hm4. set_solver.
  - split; [| reflexivity].
    destruct (String.eqb_spec bt "docs") as [-> | _]; reflexivity.
Qed.

(** X6.  When [process_update] returns a result, the branch it names was
    built from the template of the mapped branch type at the time of the
    call, is now [current_branch], is neither empty nor protected, and its
    [git push -u origin <branch>] was started; the commit type is the
    mapped branch type (the conditional on 'docs' changes nothing) and the
    status is 'success' exactly for a non-empty URL. *)
Theorem returned_update_was_pushed (update_type : string)
    (files : list string) (description : string) (r : WorkflowResult)
    (s s1 : Sys W) :
  process_update update_type files description s = (Ok r, s1) ->
  let branch_type := Py.dict_get branch_type_map update_type "feature" in
  branch_name_for (config (manager s)) branch_type description
    (strftime_now (world s)) = Ok (branch r) /\
  manager s1 = set_current_branch (Some (branch r)) (manager s) /\
  branch r <> EmptyString /\
  (branch r ∉ protected_branches (config (manager s))) /\
  git_event (manager s1) ["push"; "-u"; "origin"; branch r] ∈ trace s1 /\
  commit_type r = branch_type /\
  status r = status_of (pr_url r).
Proof. apply update_ok. Qed.

End UpdateResult.

Lemma returned_update_was_pushed_witness :
  let s := Sim.start Sim.plain (Sim.repo "main" true ["a.txt"]) in
  let run :=
    @process_update _ (Sim.machine true) "feature" ["a.txt"] "Add parser" s in
  let r :=
    {| branch := "feature/20240101-120000-add-parser";
       commit_type := "feature";
       pr_url := Some "https://example.test/pull/1";
       status := "success" |} in
  run = (Ok r, snd run) /\
  manager (snd run) = set_current_branch (Some (branch r)) (manager s) /\
  (branch r ∉ protected_branches (config (manager s))) /\
  git_event (manager (snd run)) ["push"; "-u"; "origin"; branch r]
  ∈ trace (snd run).
Proof.
  assert (Hrun :
    @process_update _ (Sim.machine true) "feature" ["a.txt"] "Add parser"
      (Sim.start Sim.plain (Sim.repo "main" true ["a.txt"]))
    = (Ok {| branch := "feature/20240101-120000-add-parser";
             commit_type := "feature";
             pr_url := Some "https://example.test/pull/1";
             status := "success" |},
       snd (@process_update _ (Sim.machine true) "feature" ["a.txt"]
              "Add parser"
              (Sim.start Sim.plain (Sim.repo "main" true ["a.txt"])))))
    by (vm_compute; reflexivity).
  split; [exact Hrun |].
  destruct (@returned_update_was_pushed _ (Sim.machine true) _ _ _ _ _ _ Hrun)
    as (_ & Hm & _ & Hnot & Hpush & _).
  repeat split; assumption.
Defined.

(** ** The commit scope *)

Lemma existsb_same {A} (p : A -> bool) (a b : list A) :
  (forall x, x ∈ a <-> x ∈ b) -> existsb p a = existsb p b.
Proof.
  intros Hsame. apply eq_true_iff_eq. rewrite !existsb_exists.
  split; intros (x & Hin & Hp); exists x; (split; [| exact Hp]);
    apply list_elem_of_In; apply Hsame; now apply list_elem_of_In.
Qed.

(** X7.  [_determine_scope] depends only on which paths are listed, not on
    their order or repetition (the accumulator hands over the elements of a
    set, in no particular order); and the scope of two lists taken together
    is the one of higher precedence, docs over config over scripts over
    core. *)
Theorem scope_depends_on_the_set_of_files (a b : list string) :
  ((forall f, f ∈ a <-> f ∈ b) -> _determine_scope a = _determine_scope b) /\
  scope_rank (_determine_scope (a ++ b))
  = Nat.max (scope_rank (_determine_scope a))
      (scope_rank (_determine_scope b)).
Proof.
  split.
  - intros Hsame. unfold _determine_scope.
    now rewrite !(existsb_same _ a b Hsame).
  - unfold _determine_scope. rewrite !existsb_app.
    repeat match goal with
           | |- context [existsb ?p ?l] => destruct (existsb p l)
           end; reflexivity.
Qed.

Lemma scope_depends_on_the_set_of_files_witness :
  let a := ["tools/run.py"; "docs/guide.txt"] in
  let b := ["docs/guide.txt"; "tools/run.py"; "docs/guide.txt"] in
  (forall f, f ∈ a <-> f ∈ b) /\
  _determine_scope a = "docs" /\
  _determine_scope a = _determine_scope b.
Proof.
  assert (Hsame : forall f : string,
             f ∈ ["tools/run.py"; "docs/guide.txt"] <->
             f ∈ ["docs/guide.txt"; "tools/run.py"; "docs/guide.txt"])
    by (intros f; rewrite !elem_of_cons, elem_of_nil; tauto).
  split; [exact Hsame |]. split; [reflexivity |].
  exact (proj1 (scope_depends_on_the_set_of_files _ _) Hsame).
Defined.

(** ** Detecting a change *)

Section Detection.
Context {W : Type} `{External W}.

Lemma on_modified_effect (event : FsEvent) (s : Sys W) :
  let filepath := src_path event in
  let new_hash := default EmptyString (file_md5 (world s) filepath) in
  let old_hash := default EmptyString (file_hashes (monitor s) !! filepath) in
  let touched :=
    with_monitor (fun m =>
      set_file_hashes (<[filepath := new_hash]> (file_hashes m)) m) s in
  on_modified event s =
  if is_directory event || _should_ignore_file filepath
     || String.eqb new_hash old_hash
  then (Ok tt, s)
  else
    match _categorize_file (mon_repo_path (monitor s)) filepath,
          relative_to filepath (mon_repo_path (monitor s)) with
    | Ok category, Ok rel_path =>
        (Ok tt,
         Build_Sys (manager s)
           (set_pending
              (pending_set category
                 ({[rel_path]} ∪ pending_get (pending_changes (monitor s))
                                   category)
                 (pending_changes (monitor s)))
              (monitor touched))
           (world s) (trace s)
           (journal s ++
            [(INFO, "Change detected: " +:+ rel_path +:+ " (category: " +:+
                    category_name category +:+ ")")])
           (emitted s))
    | Raise e, _ | Ok _, Raise e => (Raise e, touched)
    end.
Proof.
  intros filepath new_hash old_hash touched. unfold on_modified.
  fold filepath.
  destruct (is_directory event); [reflexivity |].
  destruct (_should_ignore_file filepath); [reflexivity |].
  unfold _get_file_hash. rewrite !bind_gets. fold new_hash old_hash.
  destruct (String.eqb new_hash old_hash); [reflexivity |].
  cbn [orb negb]. unfold bind at 1. unfold modify at 1. cbv beta iota.
  fold touched. rewrite bind_gets.
  change (mon_repo_path (monitor touched)) with (mon_repo_path (monitor s)).
  destruct (_categorize_file (mon_repo_path (monitor s)) filepath)
    as [category | e] eqn:Hcat.
  - rewrite (bind_lift_ok _ category _ _ eq_refl).
    destruct (relative_to filepath (mon_repo_path (monitor s)))
      as [rel_path | e] eqn:Hrel.
    + rewrite (bind_lift_ok _ rel_path _ _ eq_refl). reflexivity.
    + rewrite (bind_lift_raise _ e _ _ eq_refl). reflexivity.
  - rewrite (bind_lift_raise _ e _ _ eq_refl). reflexivity.
Qed.

(** X8.  Handling the same event a second time, with the file unchanged
    in between, does nothing and returns normally: the first handling
    stored the digest it saw.  This holds also when the first handling
    raised because the path lies outside the repository, since the digest
    is stored before the path is classified. *)
Theorem repeated_event_is_dropped (event : FsEvent) (s : Sys W) :
  let s1 := snd (on_modified event s) in
  on_modified event s1 = (Ok tt, s1).
Proof.
  intros s1. subst s1. rewrite (on_modified_effect event s).
  destruct (is_directory event || _should_ignore_file (src_path event)
            || String.eqb _ _) eqn:Hskip; cbn [snd].
  - rewrite on_modified_effect, Hskip. reflexivity.
  - apply orb_false_elim in Hskip as [Hskip _].
    assert (Hdrop : forall s1 : Sys W,
               world s1 = world s ->
               file_hashes (monitor s1) !! src_path event
               = Some (default EmptyString
                         (file_md5 (world s) (src_path event))) ->
               on_modified event s1 = (Ok tt, s1)).
    { intros s1 Hw Hh. rewrite on_modified_effect, Hw, Hh. cbn [default].
      now rewrite String.eqb_refl, orb_true_r. }
    destruct (_categorize_file _ _) as [category | e];
      [destruct (relative_to _ _) as [rel_path | e] |];
      cbn [snd]; apply Hdrop; try reflexivity;
      cbn; apply lookup_insert_eq.
Qed.




(** X10.  A change that went through a flush is not taken up again: if
    the file's digest is the same after the flush as when the event was
    first handled, handling the event again does nothing.  The stored
    digest survives the flush whether the update succeeded, failed or
    raised, and outside the window the flush has emptied the pending sets,
    so an update that failed is not retried until the file changes
    again. *)
Theorem flushed_change_is_not_retried (event : FsEvent) (s : Sys W) :
  let s1 := snd (on_modified event s) in
  let s2 := snd (process_pending_changes s1) in
  file_md5 (world s2) (src_path event) = file_md5 (world s) (src_path event) ->
  on_modified event s2 = (Ok tt, s2) /\
  (~ (time_now (world s1) - last_process_time (monitor s1)
      < process_delay (monitor s1))%Q ->
   pending_changes (monitor s2) = empty_pending).
Proof.
  intros s1 s2 Hsame.
  assert (Hhashes : file_hashes (monitor s2) = file_hashes (monitor s1) /\
                    (~ (time_now (world s1) - last_process_time (monitor s1)
                        < process_delay (monitor s1))%Q ->
                     pending_changes (monitor s2) = empty_pending)).
  { subst s2.
    destruct (Qlt_le_dec
                (time_now (world s1) - last_process_time (monitor s1))
                (process_delay (monitor s1))) as [Hin | Hout].
    - rewrite (flush_inside_window s1 Hin). split; [reflexivity |].
      intros Hnot. now destruct Hnot.
    - destruct (flush_after_window s1) as (s' & _ & Hm & _ & ->);
        [now apply Qle_not_lt |].
      cbn. rewrite Hm. split; reflexivity. }
  destruct Hhashes as [Hhashes Hempty]. split; [| exact Hempty].
  assert (Hstored :
    is_directory event || _should_ignore_file (src_path event) = false ->
    default EmptyString (file_hashes (monitor s1) !! src_path event)
    = default EmptyString (file_md5 (world s) (src_path event))).
  { intros Hskip. subst s1. rewrite (on_modified_effect event s), Hskip.
    cbn [orb].
    destruct (String.eqb _ _) eqn:Heq.
    - cbn [snd]. apply String.eqb_eq in Heq. now rewrite Heq.
    - destruct (_categorize_file _ _) as [category | e];
        [destruct (relative_to _ _) as [rel_path | e] |];
        cbn; now rewrite lookup_insert_eq. }
  rewrite on_modified_effect.
  destruct (is_directory event || _should_ignore_file (src_path event))
    eqn:Hskip; [reflexivity |].
  rewrite Hhashes, Hsame, (Hstored eq_refl), String.eqb_refl. reflexivity.
Qed.

End Detection.

Lemma flushed_change_is_not_retried_witness :
  let event := {| is_directory := false; src_path := "/repo/docs/README.md" |} in
  let s := Sim.start Sim.plain Sim.watched in
  let s1 := snd (@on_modified _ (Sim.machine false) event s) in
  let s2 := snd (@process_pending_changes _ (Sim.machine false) s1) in
  @file_md5 _ (Sim.machine false) (world s2) (src_path event)
  = @file_md5 _ (Sim.machine false) (world s) (src_path event) /\
  map ur_files (emitted s2) = [["docs/README.md"]] /\
  @on_modified _ (Sim.machine false) event s2 = (Ok tt, s2).
Proof.
  split; [vm_compute; reflexivity |]. split; [vm_compute; reflexivity |].
  apply (@flushed_change_is_not_retried _ (Sim.machine false)
           {| is_directory := false; src_path := "/repo/docs/README.md" |}
           (Sim.start Sim.plain Sim.watched)).
  vm_compute. reflexivity.
Defined.


(** ** The category that is never used *)

Section FixCategory.
Context {W : Type} `{External W}.

Lemma categorize_not_fix (repo filepath : string) (c : Category) :
  _categorize_file repo filepath = Ok c -> c <> CFix.
Proof.
  unfold _categorize_file. destruct (relative_to filepath repo); [| discriminate].
  repeat destruct (Py.any_in _ _); intros [= <-]; discriminate.
Qed.

Lemma keeps_fix_unused (s s' : Sys W) :
  keeps s s' -> fix_unused s -> fix_unused s'.
Proof. intros [Hm He]. unfold fix_unused. now rewrite Hm, He. Qed.

Lemma on_modified_fix_unused (event : FsEvent) (s : Sys W) :
  fix_unused s -> fix_unused (snd (on_modified event s)).
Proof.
  intros [Hp He]. rewrite on_modified_effect.
  destruct (_ || _ || _); [now split |].
  destruct (_categorize_file _ _) as [category | e] eqn:Hcat;
    [destruct (relative_to _ _) as [rel_path | e] |];
    split; cbn; try assumption.
  apply categorize_not_fix in Hcat.
  destruct category; [assumption .. | contradiction].
Qed.

Lemma flush_requests_no_fix (p : Pending) :
  p_fix p = ∅ ->
  Forall (fun u => ur_category u <> CFix) (flush_requests p).
Proof.
  intros Hp. unfold flush_requests, categories.
  rewrite !filter_cons, filter_nil.
  destruct (decide (pending_get p CFix ≠ ∅)) as [Hne | _];
    [now destruct Hne |].
  repeat match goal with
         | |- context [decide (?a ≠ ∅)] => destruct (decide (a ≠ ∅))
         end; repeat constructor; discriminate.
Qed.

Lemma run_call_fix_unused (call : api_call) (s : Sys W) :
  fix_unused s -> fix_unused (snd (run_call call s)).
Proof.
  assert (Hkeeps : forall (X : M W unit),
             rel keeps X -> fix_unused s -> fix_unused (snd (X s)))
    by (intros X HX; apply keeps_fix_unused, HX).
  destruct call; cbn [run_call].
  - apply Hkeeps, initialize_keeps.
  - apply Hkeeps. apply (rel_bind _ (@keeps_trans W));
      [apply create_keeps | intros _; apply (rel_ret _ (@keeps_refl W))].
  - apply Hkeeps. apply (spec_keeps guarded any_exn). intros m.
    apply after_create_spec, real_guard_spec.
  - apply Hkeeps. apply (spec_keeps guarded any_exn). intros m.
    apply push_spec; right; [exact I | intros; exact I].
  - apply Hkeeps. apply (rel_bind _ (@keeps_trans W));
      [| intros _; apply (rel_ret _ (@keeps_refl W))].
    apply (spec_keeps quiet any_exn). intros m. apply pull_request_spec.
  - apply Hkeeps. apply (rel_bind _ (@keeps_trans W));
      [| intros _; apply (rel_ret _ (@keeps_refl W))].
    apply process_update_keeps. intros m. apply real_guard_spec.
  - apply on_modified_fix_unused.
  - unfold on_created. destruct (negb _);
      [apply on_modified_fix_unused | trivial].
  - intros [Hp He].
    destruct (Qlt_le_dec
                (time_now (world s) - last_process_time (monitor s))
                (process_delay (monitor s))) as [Hin | Hout].
    + rewrite (flush_inside_window s Hin). now split.
    + destruct (flush_after_window s) as (s1 & _ & Hm1 & He1 & ->);
        [now apply Qle_not_lt |].
      split; cbn.
      * now rewrite Hm1.
      * rewrite He1. apply Forall_app. split; [exact He |].
        now apply flush_requests_no_fix.
Qed.

(** X11.  The accumulator never uses its category 'fix': from the moment
    the monitor is constructed and through any sequence of calls of the
    public methods, raising or not, the pending set under 'fix' stays
    empty and no emitted update has that category, because no path is ever
    classified as 'fix'. *)
Theorem fix_category_is_never_used (m : Manager) (path : string)
    (loaded : gmap string string) (w : W) (calls : list api_call) :
  fix_unused
    (run_calls calls (Build_Sys m (new_monitor path loaded) w [] [] [])).
Proof.
  assert (Hstart : fix_unused
                     (Build_Sys m (new_monitor path loaded) w [] [] []))
    by (split; [reflexivity | constructor]).
  revert Hstart. generalize (Build_Sys m (new_monitor path loaded) w [] [] []).
  unfold run_calls. induction calls as [| call calls IH]; intros s Hs;
    [exact Hs |].
  cbn [fold_left]. apply IH. now apply run_call_fix_unused.
Qed.

End FixCategory.

(** ** What the workflow starts *)

Section WorkflowCommands.
Context {W : Type} `{External W}.
Variable files : list string.

Lemma stays_refl (s : Sys W) : stays_in files s s.
Proof.
  split; [reflexivity |]. exists []. split; [now rewrite app_nil_r | constructor].
Qed.

Lemma stays_trans (s1 s2 s3 : Sys W) :
  stays_in files s1 s2 -> stays_in files s2 s3 -> stays_in files s1 s3.
Proof.
  intros (Hp1 & evs1 & Ht1 & HQ1) (Hp2 & evs2 & Ht2 & HQ2).
  split; [congruence |]. exists (evs1 ++ evs2).
  split; [now rewrite Ht2, Ht1, app_assoc |].
  apply Forall_app. split; [exact HQ1 | now rewrite <- Hp1].
Qed.

Lemma stays_same (s s' : Sys W) :
  repo_path (manager s') = repo_path (manager s) -> trace s' = trace s ->
  stays_in files s s'.
Proof.
  intros Hp Ht. split; [exact Hp |]. exists [].
  split; [now rewrite app_nil_r | constructor].
Qed.

Lemma log_stays (l : level) (msg : string) :
  rel (stays_in files) (log l msg : M W unit).
Proof. intros s. now apply stays_same. Qed.

Lemma run_git_stays (command : list string) :
  workflow_command files ("git" :: command) ->
  rel (stays_in files) (_run_git_command command true).
Proof.
  intros Hc s.
  destruct (run_git_exact command s) as (r & s1 & -> & Ha & _).
  destruct Ha as (Hm & _ & _ & Ht & _). cbn [snd].
  split; [now rewrite Hm |]. eexists. split; [exact Ht |].
  constructor; [| constructor]. split; [exact Hc |].
  cbn [git_event ev_argv ev_cwd]. now rewrite decide_False by discriminate.
Qed.

Ltac stays_go :=
  repeat lazymatch goal with
    | |- rel _ (bind _ _) => apply (rel_bind _ stays_trans); [| intros ?]
    | |- rel _ (ret _) => apply (rel_ret _ stays_refl)
    | |- rel _ (gets _) => apply (rel_gets _ stays_refl)
    | |- rel _ (self _) => apply (rel_self _ stays_refl)
    | |- rel _ (raise _) => apply (rel_raise _ stays_refl)
    | |- rel _ (lift _) => apply (rel_lift _ stays_refl)
    | |- rel _ (log _ _) => apply log_stays
    end.

Lemma guard_stays : rel (stays_in files) _ensure_not_on_main.
Proof.
  unfold _ensure_not_on_main. stays_go.
  - apply run_git_stays. now left.
  - destruct a as [[rc out] err]. stays_go.
    destruct (bool_decide _); stays_go.
    apply run_git_stays. right; right; left. eexists. now left.
Qed.

Lemma stage_stays (l : list string) :
  (forall f, f ∈ l -> f ∈ files) ->
  rel (stays_in files)
    (for_each l (fun file =>
       let* _ := _run_git_command ["add"; file] true in ret tt)).
Proof.
  induction l as [| f l IH]; intros Hsub; cbn [for_each]; stays_go.
  - apply run_git_stays. right; right; right; left.
    exists f. split; [apply Hsub; left | reflexivity].
  - apply IH. intros g Hg. apply Hsub. now right.
Qed.

Lemma commit_stays (ty scope d : string) :
  rel (stays_in files) (commit_changes files ty scope d).
Proof.
  unfold commit_changes, commit_changes_with. stays_go.
  - apply guard_stays.
  - now apply stage_stays.
  - apply run_git_stays. do 4 right; left. now eexists.
Qed.

Lemma create_stays (bt d : string) :
  rel (stays_in files) (create_feature_branch bt d).
Proof.
  unfold create_feature_branch. stays_go.
  - apply run_git_stays. right; now left.
  - apply run_git_stays. right; right; left. eexists. right; now left.
  - intros s. now apply stays_same.
Qed.

Lemma push_stays : rel (stays_in files) (push_branch true).
Proof.
  unfold push_branch. stays_go.
  destruct a as [[| c n] |]; stays_go.
  destruct (bool_decide _); stays_go.
  apply run_git_stays. right; right; left. eexists. right; now right.
Qed.

Lemma subprocess_stays (argv : list string) (cwd : option string)
    (check : bool) (s : Sys W) :
  workflow_command files argv ->
  cwd = (if decide (argv = ["gh"; "--version"]) then None
         else repo_path (manager s)) ->
  stays_in files s (snd (subprocess_run argv cwd check s)).
Proof.
  intros Hc Hcwd. rewrite subprocess_exact. cbn [snd].
  split; [reflexivity |]. eexists. split; [reflexivity |].
  constructor; [| constructor]. split; [exact Hc | exact Hcwd].
Qed.

Lemma bind_stays_at {A B} (X : M W A) (k : A -> M W B) (s : Sys W) :
  stays_in files s (snd (X s)) ->
  (forall a, rel (stays_in files) (k a)) ->
  stays_in files s (snd (bind X k s)).
Proof.
  intros HX Hk. unfold bind. destruct (X s) as [[a | e] s1]; [| exact HX].
  eapply stays_trans; [exact HX | apply Hk].
Qed.

Lemma pull_request_stays (title body : string)
    (labels : option (list string)) :
  rel (stays_in files) (create_pull_request title body labels).
Proof.
  unfold create_pull_request. apply (rel_bind _ stays_trans).
  - apply (rel_try _ stays_trans).
    + intros s. apply bind_stays_at; [| intros a; stays_go].
      apply subprocess_stays; [do 5 right; now left | reflexivity].
    + intros e k Hk. destruct e; inversion Hk; subst; stays_go.
  - intros available. destruct (negb available); [stays_go |].
    apply (rel_bind _ stays_trans); [apply (rel_self _ stays_refl) | intros c].
    apply (rel_bind _ stays_trans); [apply log_stays | intros _].
    intros s. rewrite bind_self. apply bind_stays_at.
    + apply subprocess_stays; [do 6 right; now eexists | reflexivity].
    + intros [[rc out] err]. destruct (rc =? 0)%Z; stays_go.
Qed.

(** X12.  Whatever git and gh answer and whether it returns or raises,
    [process_update] starts nothing but its own commands: the branch
    query, [fetch origin], [checkout -b] of a new branch, [add] of a listed
    file, [commit -m], [push -u origin] and the two gh commands.  Each runs
    in the directory the manager is pointed at (the probe [gh --version]
    in the directory of the process), and the manager stays pointed at
    that directory. *)
Theorem update_starts_only_its_commands (update_type description : string)
    (s : Sys W) :
  stays_in files s (snd (process_update update_type files description s)).
Proof.
  revert s. change (rel (stays_in files)
                      (process_update update_type files description)).
  unfold process_update, process_update_with. stays_go.
  - apply create_stays.
  - apply commit_stays.
  - apply push_stays.
  - unfold _generate_pr_body. stays_go.
  - apply pull_request_stays.
Qed.

End WorkflowCommands.

(** ** The entry points *)

Section EntryPointResults.
Context {W : Type} `{External W}.

Lemma initialize_manager (path : string) (s : Sys W) :
  manager (snd (initialize_repository path s))
  = set_repo_path (Some path) (manager s).
Proof.
  unfold initialize_repository. unfold bind at 1. unfold modify at 1.
  cbv beta iota.
  match goal with
  | |- context [snd (?X ?st)] =>
      assert (HX : forall m, spec m (guarded m) any_exn X);
        [| destruct (HX (manager st) st eq_refl) as [(Hm & _) _];
           now rewrite Hm ]
  end.
  intros m. apply spec_bind; [apply spec_gets | intros present].
  apply spec_bind; [| intros _; apply real_guard_spec].
  destruct (negb present).
  - apply spec_bind; [apply spec_log | intros _]. apply spec_self.
    apply spec_bind; [| intros _; apply spec_ret].
    apply spec_subprocess;
      [split; [reflexivity | discriminate] | intros; exact I | intros; exact I].
  - apply spec_log.
Qed.

Lemma success_has_url (r : WorkflowResult) :
  status r = status_of (pr_url r) ->
  String.eqb (status r) "success" = true ->
  exists url, pr_url r = Some url /\ url <> EmptyString.
Proof.
  intros -> Hs. destruct (pr_url r) as [[| c u] |]; try discriminate.
  exists (String c u). split; [reflexivity | discriminate].
Qed.

(** X13.  [handle_manual_update] never raises: every exception of the
    initialisation or of the update is caught and logged, and the answer is
    then [None].  It answers with a result only when the update returned
    with status 'success'; that result carries a non-empty URL and names the
    branch that is now [current_branch], which is not protected.  The
    monitor is not touched. *)
Theorem manual_update_never_raises (files : list string)
    (description update_type : string) (s : Sys W) :
  exists answer s1,
    handle_manual_update files description update_type s = (Ok answer, s1) /\
    monitor s1 = monitor s /\ emitted s1 = emitted s /\
    forall r, answer = Some r ->
      status r = "success" /\
      (exists url, pr_url r = Some url /\ url <> EmptyString) /\
      current_branch (manager s1) = Some (branch r) /\
      (branch r ∉ protected_branches (config (manager s1))).
Proof.
  assert (Hkeeps : rel keeps
            (handle_manual_update files description update_type)).
  { unfold handle_manual_update.
    apply (rel_bind _ (@keeps_trans W)); [apply log_keeps | intros _].
    apply (rel_try _ (@keeps_trans W)).
    - rel_go (@keeps_refl W) (@keeps_trans W).
      + destruct a; [apply (rel_ret _ (@keeps_refl W)) | apply initialize_keeps].
      + apply process_update_keeps. intros m. apply real_guard_spec.
      + destruct (String.eqb _ _); rel_go (@keeps_refl W) (@keeps_trans W);
          apply log_keeps.
    - intros e k [= <-]. rel_go (@keeps_refl W) (@keeps_trans W).
      apply log_keeps. }
  specialize (Hkeeps s). destruct Hkeeps as [Hmon Hemit].
  revert Hmon Hemit. unfold handle_manual_update. rewrite bind_log.
  unfold try_except.
  match goal with
  | |- context [match ?X ?st with _ => _ end] =>
      destruct (X st) as [[answer | e] s1] eqn:Hbody
  end.
  - cbn [snd]. intros Hmon Hemit. exists answer, s1.
    split; [reflexivity |]. split; [exact Hmon |]. split; [exact Hemit |].
    intros r ->. rewrite bind_self in Hbody.
    apply bind_Ok in Hbody as ([] & s2 & _ & Hbody).
    apply bind_Ok in Hbody as (r' & s3 & Hupdate & Hbody).
    apply update_ok in Hupdate as (_ & Hm & _ & Hnot & _ & _ & Hstatus).
    destruct (String.eqb (status r') "success") eqn:Hs;
      rewrite bind_log in Hbody; [| discriminate].
    injection Hbody as <- <-. cbn [manager].
    split; [now apply String.eqb_eq |].
    split; [now apply success_has_url |].
    rewrite Hm. cbn. split; [reflexivity | exact Hnot].
  - rewrite bind_log. cbn [snd]. intros Hmon Hemit.
    eexists. eexists. split; [reflexivity |].
    split; [exact Hmon |]. split; [exact Hemit |]. discriminate.
Qed.

(** X14.  [handle_file_update] refuses to do anything when the loaded
    configuration has [prevent_main_commit] off: the constructor raises
    before a line is logged or a process started.  When it returns a
    result, the configuration had the safeguard on, the manager is a new
    one holding that configuration and pointed at the clone, its
    [current_branch] is the branch of the result, that branch is not
    protected, and its push was started. *)
Theorem file_update_needs_the_safeguard (loaded : Config)
    (files : list string) (description update_type : string) (s : Sys W) :
  (prevent_main_commit loaded = false ->
   handle_file_update loaded files description update_type s
   = (Raise (ValueError "CRITICAL: Main branch protection must be enabled!"),
      s)) /\
  (forall r s1,
      handle_file_update loaded files description update_type s
      = (Ok r, s1) ->
      prevent_main_commit loaded = true /\
      manager s1 = {| config := loaded;
                      repo_path := Some agent_repo_path;
                      current_branch := Some (branch r) |} /\
      (branch r ∉ protected_branches loaded) /\
      git_event (manager s1) ["push"; "-u"; "origin"; branch r] ∈ trace s1).
Proof.
  unfold handle_file_update, setup_agent, new_manager. split.
  - intros ->. reflexivity.
  - intros r s1 Hrun.
    destruct (prevent_main_commit loaded); [| discriminate].
    split; [reflexivity |]. cbn [negb] in Hrun.
    apply bind_Ok in Hrun as ([] & s2 & Hsetup & Hupdate).
    rewrite (bind_lift_ok _ _ _ _ eq_refl), bind_log in Hsetup.
    unfold bind at 1 in Hsetup. unfold modify at 1 in Hsetup.
    cbv beta iota in Hsetup.
    match type of Hsetup with
    | initialize_repository ?p ?st = _ =>
        pose proof (initialize_manager p st) as Hm2
    end.
    rewrite Hsetup in Hm2. cbn in Hm2.
    apply update_ok in Hupdate as (_ & Hm & _ & Hnot & Hpush & _).
    rewrite Hm2 in Hm, Hnot. cbn in Hm, Hnot.
    split; [exact Hm |]. split; [exact Hnot | exact Hpush].
Qed.

(** X15.  Every category name of the accumulator is mapped to the branch
    type 'feature': none of 'docs', 'config' and 'fix' is a key of the map
    of [process_update] (its keys are 'documentation', 'configuration' and
    'bugfix').  An update the accumulator hands over therefore gets the
    commit type 'feature' and a branch built from the feature template,
    whatever its category. *)
Theorem accumulator_updates_are_features (category : Category)
    (files : list string) (description : string) (r : WorkflowResult)
    (s s1 : Sys W) :
  process_update (category_name category) files description s = (Ok r, s1) ->
  commit_type r = "feature" /\
  branch_name_for (config (manager s)) "feature" description
    (strftime_now (world s)) = Ok (branch r).
Proof.
  intros Hrun. apply update_ok in Hrun as (Hname & _ & _ & _ & _ & Hty & _).
  assert (Hmap : Py.dict_get branch_type_map (category_name category)
                   "feature" = "feature")
    by (destruct category; reflexivity).
  rewrite Hmap in Hname, Hty. split; assumption.
Qed.

End EntryPointResults.

Lemma file_update_needs_the_safeguard_witness :
  let s := Sim.fresh Sim.plain (Sim.repo "main" true ["a.txt"]) in
  let run :=
    @handle_file_update _ (Sim.machine true) Sim.plain ["a.txt"]
      "Add parser" "feature" s in
  let r :=
    {| branch := "feature/20240101-120000-add-parser";
       commit_type := "feature";
       pr_url := Some "https://example.test/pull/1";
       status := "success" |} in
  run = (Ok r, snd run) /\
  manager (snd run) = {| config := Sim.plain;
                         repo_path := Some agent_repo_path;
                         current_branch := Some (branch r) |} /\
  git_event (manager (snd run)) ["push"; "-u"; "origin"; branch r]
  ∈ trace (snd run).
Proof.
  assert (Hrun :
    @handle_file_update _ (Sim.machine true) Sim.plain ["a.txt"]
      "Add parser" "feature"
      (Sim.fresh Sim.plain (Sim.repo "main" true ["a.txt"]))
    = (Ok {| branch := "feature/20240101-120000-add-parser";
             commit_type := "feature";
             pr_url := Some "https://example.test/pull/1";
             status := "success" |},
       snd (@handle_file_update _ (Sim.machine true) Sim.plain ["a.txt"]
              "Add parser" "feature"
              (Sim.fresh Sim.plain (Sim.repo "main" true ["a.txt"])))))
    by (vm_compute; reflexivity).
  split; [exact Hrun |].
  destruct (proj2 (@file_update_needs_the_safeguard _ (Sim.machine true)
                     Sim.plain ["a.txt"] "Add parser" "feature"
                     (Sim.fresh Sim.plain (Sim.repo "main" true ["a.txt"])))
              _ _ Hrun) as (_ & Hm & _ & Hpush).
  split; assumption.
Defined.

Lemma accumulator_updates_are_features_witness :
  let s := Sim.start Sim.plain (Sim.repo "dev" true ["README.md"]) in
  let run :=
    @process_update _ (Sim.machine true) (category_name CDocs) ["README.md"]
      "Update README.md" s in
  let r :=
    {| branch := "feature/20240101-120000-update-readme.md";
       commit_type := "feature";
       pr_url := Some "https://example.test/pull/1";
       status := "success" |} in
  run = (Ok r, snd run) /\
  commit_type r = "feature" /\
  @branch_name_for _ (Sim.machine true) (config (manager s)) "feature" "Update README.md"
    (@strftime_now _ (Sim.machine true) (world s)) = Ok (branch r).
Proof.
  assert (Hrun :
    @process_update _ (Sim.machine true) (category_name CDocs) ["README.md"]
      "Update README.md"
      (Sim.start Sim.plain (Sim.repo "dev" true ["README.md"]))
    = (Ok {| branch := "feature/20240101-120000-update-readme.md";
             commit_type := "feature";
             pr_url := Some "https://example.test/pull/1";
             status := "success" |},
       snd (@process_update _ (Sim.machine true) (category_name CDocs)
              ["README.md"] "Update README.md"
              (Sim.start Sim.plain (Sim.repo "dev" true ["README.md"])))))
    by (vm_compute; reflexivity).
  split; [exact Hrun |].
  exact (@accumulator_updates_are_features _ (Sim.machine true) CDocs
           _ _ _ _ _ Hrun).
Defined.

(** ** The body of the pull request *)

Section PullRequestBody.
Context {W : Type} `{External W}.

Lemma append_assoc (a b c : string) : (a +:+ b) +:+ c = a +:+ (b +:+ c).
Proof.
  induction a as [| x a IH]; [reflexivity |].
  change (String x ((a +:+ b) +:+ c) = String x (a +:+ (b +:+ c))).
  now rewrite IH.
Qed.

Lemma lines_appended (files : list string) (body : string) :
  fold_left (fun b file => b +:+ "- " +:+ file +:+ nl) files body
  = body +:+ String.concat EmptyString (map pr_file_line files).
Proof.
  revert body. induction files as [| f files IH]; intros body.
  - cbn [fold_left map String.concat]. now rewrite append_empty.
  - cbn [fold_left map]. rewrite IH.
    replace (String.concat EmptyString (pr_file_line f :: map pr_file_line files))
      with (pr_file_line f +:+
            String.concat EmptyString (map pr_file_line files)).
    + unfold pr_file_line. now rewrite !append_assoc.
    + destruct files as [| g files]; [| reflexivity].
      cbn [map String.concat]. now rewrite append_empty.
Qed.

(** X16.  [_generate_pr_body] never raises and changes nothing.  The body
    is the summary with the description, the update type and the value of
    [current_branch] (the text 'None' when it is unset), then one line
    [- <file>] for each listed file, in the order given and with
    repetitions kept, then the fixed checklist. *)
Theorem pr_body_lists_every_file (update_type : string)
    (files : list string) (description : string) (s : Sys W) :
  _generate_pr_body update_type files description s
  = (Ok (pr_intro update_type description (current_branch (manager s))
         +:+ String.concat EmptyString (map pr_file_line files)
         +:+ pr_checklist),
     s).
Proof.
  unfold _generate_pr_body. rewrite bind_self. cbv zeta. unfold ret.
  rewrite lines_appended. fold (pr_intro update_type description
                                  (current_branch (manager s))).
  unfold pr_intro. now rewrite !append_assoc.
Qed.

End PullRequestBody.
